(** * Network interface enumeration on Plan 9 (package net, interface_plan9.go)

    A shallow embedding of [interfaceTable], [readInterface],
    [getInterfaceCount], [interfaceAddrTable] and
    [interfaceMulticastAddrTable], followed by the properties of the
    interface-enumeration specification that they satisfy or violate.

    Go strings are byte sequences and so are Rocq strings ([ascii] is an
    eight-bit byte); Go's [int] is a two's-complement integer of 32 or 64
    bits, modelled in [Z] with its wrap-around written out; a Go function
    returning [(T, error)] returns a [result]; a function that may also
    stop with a run-time panic, or whose loop has no bound in the program
    text, returns an [outcome]. *)

From Stdlib Require Import ZArith List String Ascii Bool Lia.
From Stdlib Require Import DecimalString DecimalZ Finite.
Import ListNotations.
Open Scope string_scope.
Open Scope Z_scope.

(** ** Errors, results and panics *)

(** The error values that reach this file.  [errors_New] is the value built
    by [errors.New]; the others come from the os, bufio and strconv
    packages. *)
Inductive error : Type :=
| errors_New (text : string)
| PathError (op path reason : string)
| ErrTooLong
| NumError (func num : string) (cause : error).

Definition ErrSyntax : error := errors_New "invalid syntax".
Definition ErrRange : error := errors_New "value out of range".

(** A format error in the sense of the specification is an error made on
    the spot with [errors.New]; every other error is handed over from the
    operating system or from a library. *)
Definition isFormatError (e : error) : bool :=
  match e with
  | errors_New _ => true
  | _ => false
  end.

Inductive result (A : Type) : Type :=
| Ok (a : A)
| Err (e : error).
Arguments Ok {A} a.
Arguments Err {A} e.

(** [Return a] is [return a, nil], [Throw e] is [return nil, e], [Panic]
    is a run-time panic, and [Loops] says that a loop was still running
    when the iterations granted to it were used up. *)
Inductive outcome (A : Type) : Type :=
| Return (a : A)
| Throw (e : error)
| Panic (msg : string)
| Loops.
Arguments Return {A} a.
Arguments Throw {A} e.
Arguments Panic {A} msg.
Arguments Loops {A}.

Definition bind {A B : Type} (m : outcome A) (k : A -> outcome B) : outcome B :=
  match m with
  | Return a => k a
  | Throw e => Throw e
  | Panic msg => Panic msg
  | Loops => Loops
  end.

(** [if err != nil { return nil, err }] after a library call. *)
Definition try {A : Type} (r : result A) : outcome A :=
  match r with
  | Ok a => Return a
  | Err e => Throw e
  end.

(** The same test on a bare error value, as after [scanner.Err()]. *)
Definition check (e : option error) : outcome unit :=
  match e with
  | None => Return tt
  | Some e => Throw e
  end.

Declare Scope go_scope.
Delimit Scope go_scope with go.
Notation "x <- m ;; k" := (bind m (fun x => k))
  (at level 61, m at next level, right associativity) : go_scope.
Notation "m ;;; k" := (bind m (fun _ => k))
  (at level 61, right associativity) : go_scope.
Open Scope go_scope.

(** ** Machine integers *)

(** The Plan 9 ports of Go; [int] has 64 bits on amd64 and 32 bits on the
    other two. *)
Inductive GOARCH : Type := amd64 | i386 | arm.

Definition intSize (a : GOARCH) : Z :=
  match a with
  | amd64 => 64
  | i386 | arm => 32
  end.

(** Two's-complement wrap-around of a value to [w] bits. *)
Definition wrap (w : Z) (x : Z) : Z :=
  (x + 2 ^ (w - 1)) mod 2 ^ w - 2 ^ (w - 1).

Definition minInt (a : GOARCH) : Z := - 2 ^ (intSize a - 1).
Definition maxInt (a : GOARCH) : Z := 2 ^ (intSize a - 1) - 1.

(** Addition on [int], and the conversion [int(x)] of an [int64]. *)
Definition int_add (a : GOARCH) (x y : Z) : Z := wrap (intSize a) (x + y).
Definition int_of_int64 (a : GOARCH) (x : Z) : Z := wrap (intSize a) x.

(** ** strconv *)

(** [strconv.Itoa]: the decimal digits of the number, most significant
    first, after a minus sign when it is negative. *)
Definition Itoa (i : Z) : string := NilZero.string_of_int (Z.to_int i).

(** Value of a digit byte in [ParseUint]: ['0'..'9'], ['a'..'z'] and
    ['A'..'Z'] stand for 0 to 35. *)
Definition digitVal (c : ascii) : option Z :=
  let n := Z.of_N (N_of_ascii c) in
  if (48 <=? n) && (n <=? 57) then Some (n - 48)
  else if (97 <=? n) && (n <=? 122) then Some (n - 97 + 10)
  else if (65 <=? n) && (n <=? 90) then Some (n - 65 + 10)
  else None.

(** The digit loop of [strconv.ParseUint]: [n] is the number read so far. *)
Fixpoint ParseUint_loop (s0 s : string) (base cutoff maxVal n : Z) : result Z :=
  match s with
  | EmptyString => Ok n
  | String c s' =>
      match digitVal c with
      | None => Err (NumError "ParseUint" s0 ErrSyntax)
      | Some v =>
          if base <=? v then Err (NumError "ParseUint" s0 ErrSyntax)
          else if cutoff <=? n then Err (NumError "ParseUint" s0 ErrRange)
          else
            let n1 := n * base + v in
            if maxVal <? n1 then Err (NumError "ParseUint" s0 ErrRange)
            else ParseUint_loop s0 s' base cutoff maxVal n1
      end
  end.

(** [strconv.ParseUint] for an explicit base between 2 and 36. *)
Definition ParseUint (s : string) (base bitSize : Z) : result Z :=
  match s with
  | EmptyString => Err (NumError "ParseUint" s ErrSyntax)
  | _ =>
      let maxUint64 := 2 ^ 64 - 1 in
      ParseUint_loop s s base (maxUint64 / base + 1) (2 ^ bitSize - 1) 0
  end.

Definition isRangeError (e : error) : bool :=
  match e with
  | NumError _ _ (errors_New "value out of range") => true
  | _ => false
  end.

(** [strconv.ParseInt]: an optional sign, then [ParseUint]; the magnitude
    must fit the signed range of [bitSize] bits. *)
Definition ParseInt (s : string) (base bitSize : Z) : result Z :=
  match s with
  | EmptyString => Err (NumError "ParseInt" s ErrSyntax)
  | String c s' =>
      let neg := Ascii.eqb c "-" in
      let digits := if Ascii.eqb c "+" || neg then s' else s in
      let cutoff := 2 ^ (bitSize - 1) in
      match ParseUint digits base bitSize with
      | Err e =>
          (* a range error of ParseUint carries the largest magnitude, which
             the cutoff tests below reject in turn *)
          if isRangeError e then Err (NumError "ParseInt" s ErrRange)
          else Err (NumError "ParseInt" s ErrSyntax)
      | Ok un =>
          if negb neg && (cutoff <=? un) then Err (NumError "ParseInt" s ErrRange)
          else if neg && (cutoff <? un) then Err (NumError "ParseInt" s ErrRange)
          else Ok (if neg then - un else un)
      end
  end.

(** ** strings *)

(** [strings.Split(s, sep)] for a one-byte separator, which is what both
    call sites pass: the pieces of [s] between the separators, the empty
    pieces included, so that the result is never empty. *)
Fixpoint Split (s : string) (sep : ascii) : list string :=
  match s with
  | EmptyString => [EmptyString]
  | String c s' =>
      if Ascii.eqb c sep then EmptyString :: Split s' sep
      else
        match Split s' sep with
        | [] => [String c EmptyString]
        | piece :: pieces => String c piece :: pieces
        end
  end.

(** [len] of a string and of a slice, as an [int]. *)
Definition len (s : string) : Z := Z.of_nat (String.length s).
Definition lenSlice {A : Type} (l : list A) : Z := Z.of_nat (List.length l).

(** Indexing [l[i]]: a run-time panic outside the bounds. *)
Definition index {A : Type} (l : list A) (i : nat) : outcome A :=
  match nth_error l i with
  | Some x => Return x
  | None => Panic "index out of range"
  end.

(** The slice expression [s[lo:hi]] on a string: a run-time panic unless
    [lo <= hi <= len(s)]. *)
Definition slice (s : string) (lo hi : nat) : outcome string :=
  if (lo <=? hi)%nat && (hi <=? String.length s)%nat
  then Return (substring lo (hi - lo) s)
  else Panic "slice bounds out of range".

(** The assignment [l[i] = x]: a run-time panic outside the bounds. *)
Fixpoint assign {A : Type} (l : list A) (i : nat) (x : A) : outcome (list A) :=
  match l, i with
  | [], _ => Panic "index out of range"
  | _ :: t, O => Return (x :: t)
  | h :: t, S i' => t' <- assign t i' x ;; Return (h :: t')
  end.

(** ** The operating system and the collaborators *)

(** What a path of the pseudo-filesystem leads to once opened: the bytes
    that reading delivers, the error that ends the reading ([None] for a
    plain end of file), and what [Readdirnames(-1)] answers. *)
Record Node : Type := {
  data : string;
  readErr : option error;
  dirNames : result (list string)
}.

(** An open file: [os.File.Name] is the name as presented to [os.Open]. *)
Record File : Type := {
  File_Name : string;
  File_node : Node
}.

Definition HardwareAddr : Type := list Byte.byte.

(** An [IP] is a byte slice; [None] is the [nil] slice. *)
Definition IP : Type := option (list Byte.byte).

(** Everything [interface_plan9.go] takes from the rest of the package and
    from the platform: the architecture, the constant [netdir], the
    filesystem behind [os.Open], [filepath.Join], [ParseMAC] and [ParseIP]
    (which answers [nil] for text that is no IP address).
    [staleToken] tells whether a [Scanner] whose [Scan] finds the input
    exhausted keeps its previous token (the older bufio) or clears it. *)
Record Env : Type := {
  arch : GOARCH;
  netdir : string;
  fs : string -> result Node;
  filepath_Join : list string -> string;
  ParseMAC : string -> result HardwareAddr;
  ParseIP : string -> IP;
  staleToken : bool
}.

Definition os_Open (E : Env) (name : string) : result File :=
  match fs E name with
  | Ok n => Ok {| File_Name := name; File_node := n |}
  | Err e => Err e
  end.

Definition Readdirnames (f : File) : result (list string) :=
  dirNames (File_node f).

(** ** bufio.Scanner with the default line splitter *)

Definition MaxScanTokenSize : N := 65536.

(** [unread] is the input not yet consumed, [srcErr] the error waiting
    behind it, [finished] whether the end of the input was reached,
    [token] the last token and [err] the first error other than end of
    file. *)
Record Scanner : Type := {
  unread : string;
  srcErr : option error;
  finished : bool;
  token : string;
  err : option error;
  keepsToken : bool
}.

Definition NewScanner (E : Env) (f : File) : Scanner :=
  {| unread := data (File_node f);
     srcErr := readErr (File_node f);
     finished := false;
     token := EmptyString;
     err := None;
     keepsToken := staleToken E |}.

(** The input up to its first newline and the input after it. *)
Fixpoint cutLine (s : string) : option (string * string) :=
  match s with
  | EmptyString => None
  | String c s' =>
      if Ascii.eqb c "010" then Some (EmptyString, s')
      else
        match cutLine s' with
        | Some (line, rest) => Some (String c line, rest)
        | None => None
        end
  end.

(** [dropCR]: a line loses one trailing carriage return. *)
Fixpoint dropCR (s : string) : string :=
  match s with
  | EmptyString => EmptyString
  | String c EmptyString => if Ascii.eqb c "013" then EmptyString else s
  | String c s' => String c (dropCR s')
  end.

Definition tooLong (s : string) : bool :=
  (MaxScanTokenSize <=? N.of_nat (String.length s))%N.

(** [Scan] advances to the next line.  A line that does not fit the buffer
    with its newline stops the scanner with [ErrTooLong]; the last line
    needs no newline; once the input is exhausted there is no token. *)
Definition Scan (s : Scanner) : bool * Scanner :=
  match cutLine (unread s) with
  | Some (line, rest) =>
      if tooLong line then
        (false, {| unread := unread s; srcErr := srcErr s; finished := true;
                   token := EmptyString; err := Some ErrTooLong;
                   keepsToken := keepsToken s |})
      else
        (true, {| unread := rest; srcErr := srcErr s; finished := finished s;
                  token := dropCR line; err := err s;
                  keepsToken := keepsToken s |})
  | None =>
      if finished s then
        (false, {| unread := EmptyString; srcErr := srcErr s; finished := true;
                   token := if keepsToken s then token s else EmptyString;
                   err := err s; keepsToken := keepsToken s |})
      else if tooLong (unread s) then
        (false, {| unread := unread s; srcErr := srcErr s; finished := true;
                   token := EmptyString; err := Some ErrTooLong;
                   keepsToken := keepsToken s |})
      else
        match unread s with
        | EmptyString =>
            (false, {| unread := EmptyString; srcErr := srcErr s; finished := true;
                       token := if keepsToken s then token s else EmptyString;
                       err := srcErr s; keepsToken := keepsToken s |})
        | last =>
            (true, {| unread := EmptyString; srcErr := srcErr s; finished := true;
                      token := dropCR last; err := srcErr s;
                      keepsToken := keepsToken s |})
        end
  end.

Definition Text (s : Scanner) : string := token s.
Definition Scanner_Err (s : Scanner) : option error := err s.

(** ** package net: the declarations used *)

Definition FlagUp : Z := Z.shiftl 1 0.
Definition FlagBroadcast : Z := Z.shiftl 1 1.
Definition FlagLoopback : Z := Z.shiftl 1 2.

Record Interface : Type := {
  Index : Z;
  MTU : Z;
  Name : string;
  HardwareAddress : HardwareAddr;
  Flags : Z
}.

(** The zero value of [Interface], with which [make] fills a slice. *)
Definition zeroInterface : Interface :=
  {| Index := 0; MTU := 0; Name := EmptyString; HardwareAddress := []; Flags := 0 |}.

Record IPAddr : Type := {
  IPAddr_IP : IP;
  Zone : string
}.

(** [Addr] is an interface type: [nil] or a pointer to an [IPAddr]. *)
Definition Addr : Type := option IPAddr.

(** The same assignment with an [int] for index. *)
Definition assignAt {A : Type} (l : list A) (i : Z) (x : A) : outcome (list A) :=
  if i <? 0 then Panic "index out of range"
  else assign l (Z.to_nat i) x.

(** [make([]T, n)] filled with the zero value. *)
Definition make {A : Type} (zero : A) (n : Z) : outcome (list A) :=
  if n <? 0 then Panic "makeslice: len out of range"
  else Return (repeat zero (Z.to_nat n)).

Definition tab : ascii := "009"%char.
Definition space : ascii := " "%char.

(** ** interface_plan9.go *)

Definition readInterface (E : Env) (id : Z) : outcome Interface :=
  let iface_Index := int_add (arch E) id 1 in
  let iface_Name := Itoa id in
  ifaceStatus <- try (os_Open E (filepath_Join E [netdir E; "ipifc"; iface_Name; "status"])) ;;
  let scanner := NewScanner E ifaceStatus in
  let scanner := snd (Scan scanner) in
  let status := Text scanner in
  check (Scanner_Err scanner) ;;;
  let statusData := Split status space in
  if lenSlice statusData <? 4 then
    Throw (errors_New ("Invalid status file of interface: " ++ File_Name ifaceStatus))
  else
  device <- index statusData 1 ;;
  mtuStr <- index statusData 3 ;;
  match ParseInt mtuStr 10 64 with
  | Err _ =>
      Throw (errors_New ("Invalid status file of interface: " ++ File_Name ifaceStatus))
  | Ok mtu =>
  let iface_MTU := int_of_int64 (arch E) mtu in
  deviceAddrFile <- try (os_Open E (filepath_Join E [device; "addr"])) ;;
  let scanner := NewScanner E deviceAddrFile in
  let scanner := snd (Scan scanner) in
  let address := Text scanner in
  check (Scanner_Err scanner) ;;;
  if negb (len address =? 12) then
    Throw (errors_New "Interface has invalid hardware address")
  else
  a0 <- slice address 0 1 ;;
  a1 <- slice address 1 2 ;;
  a2 <- slice address 2 3 ;;
  a3 <- slice address 3 4 ;;
  a4 <- slice address 4 5 ;;
  a5 <- slice address 5 6 ;;
  a6 <- slice address 6 7 ;;
  a7 <- slice address 7 8 ;;
  a8 <- slice address 8 9 ;;
  a9 <- slice address 9 10 ;;
  a10 <- slice address 10 11 ;;
  a11 <- slice address 11 12 ;;
  let address :=
    ((((((((((((((((a0 ++ a1) ++ ":") ++ a2) ++ a3) ++ ":") ++ a4) ++ a5) ++ ":") ++
      a6) ++ a7) ++ ":") ++ a8) ++ a9) ++ ":") ++ a10) ++ a11)%string in
  hw <- try (ParseMAC E address) ;;
  Return {| Index := iface_Index;
            MTU := iface_MTU;
            Name := iface_Name;
            HardwareAddress := hw;
            Flags := Z.lor (Z.lor FlagUp FlagBroadcast) FlagLoopback |}
  end.

(** The inner [for ... range names] of [getInterfaceCount]: whether a name
    equal to the decimal text of [count] was found, and [count] after it. *)
Fixpoint getInterfaceCount_range (a : GOARCH) (names : list string) (count : Z) : bool * Z :=
  match names with
  | [] => (false, count)
  | name :: rest =>
      if String.eqb name (Itoa count) then (true, int_add a count 1)
      else getInterfaceCount_range a rest count
  end.

(** The outer [for] of [getInterfaceCount], which the program leaves
    without a bound; [fuel] is the number of passes granted. *)
Fixpoint getInterfaceCount_loop (a : GOARCH) (fuel : nat) (names : list string) (count : Z) : outcome Z :=
  match fuel with
  | O => Loops
  | S fuel' =>
      let (found, count) := getInterfaceCount_range a names count in
      if negb found then Return count
      else getInterfaceCount_loop a fuel' names count
  end.

(** A pass either ends the loop or finds a name not found before, so one
    pass more than there are names is granted. *)
Definition getInterfaceCount (E : Env) : outcome Z :=
  ipifc <- try (os_Open E (filepath_Join E [netdir E; "ipifc"])) ;;
  names <- try (Readdirnames ipifc) ;;
  getInterfaceCount_loop (arch E) (S (List.length names)) names 0.

(** The [for idx := 0; idx < numIfc; idx++] of [interfaceTable]. *)
Fixpoint interfaceTable_loop (E : Env) (fuel : nat) (numIfc idx : Z) (interfaces : list Interface) : outcome (list Interface) :=
  if idx <? numIfc then
    match fuel with
    | O => Loops
    | S fuel' =>
        ifc <- readInterface E idx ;;
        interfaces <- assignAt interfaces idx ifc ;;
        interfaceTable_loop E fuel' numIfc (int_add (arch E) idx 1) interfaces
    end
  else Return interfaces.

Definition interfaceTable (E : Env) (ifindex : Z) : outcome (list Interface) :=
  if ifindex =? 0 then
    numIfc <- getInterfaceCount E ;;
    interfaces <- make zeroInterface numIfc ;;
    interfaceTable_loop E (Z.to_nat numIfc) numIfc 0 interfaces
  else
    ifc <- readInterface E ifindex ;;
    Return [ifc].

(** The [for idx, iface := range ifaces] of [interfaceAddrTable]. *)
Fixpoint interfaceAddrTable_loop (E : Env) (ifaces : list Interface) (idx : nat) (addresses : list Addr) : outcome (list Addr) :=
  match ifaces with
  | [] => Return addresses
  | iface :: rest =>
      statusFile <- try (os_Open E (filepath_Join E [netdir E; "ipifc"; Name iface; "status"])) ;;
      let scanner := NewScanner E statusFile in
      let scanner := snd (Scan scanner) in
      let scanner := snd (Scan scanner) in
      check (Scanner_Err scanner) ;;;
      let ipline := Text scanner in
      first <- slice ipline 0 1 ;;
      if negb (String.eqb first (String tab EmptyString)) then
        Throw (errors_New "Cannot parse IP address for interface")
      else
      field <- index (Split ipline tab) 1 ;;
      ipaddr <- index (Split field space) 0 ;;
      let ip := ParseIP E ipaddr in
      let addr := {| IPAddr_IP := ip; Zone := EmptyString |} in
      match IPAddr_IP addr with
      | None => Throw (errors_New "Unable to parse IP address for interface")
      | Some _ =>
          addresses <- assign addresses idx (Some addr) ;;
          interfaceAddrTable_loop E rest (S idx) addresses
      end
  end.

Definition interfaceAddrTable (E : Env) (ifi : option Interface) : outcome (list Addr) :=
  ifaces <-
    match ifi with
    | None => interfaceTable E 0
    | Some i => Return [i]
    end ;;
  addresses <- make (None : Addr) (lenSlice ifaces) ;;
  interfaceAddrTable_loop E ifaces 0 addresses.

Definition interfaceMulticastAddrTable (E : Env) (ifi : option Interface) : outcome (list Addr) :=
  Return [].

(** ** A pseudo-filesystem and collaborators for the examples *)

Definition nl : string := String "010"%char EmptyString.
Definition ht : string := String tab EmptyString.

(** A regular file holding [text], and a directory listing [names]. *)
Definition textFile (text : string) : Node :=
  {| data := text;
     readErr := None;
     dirNames := Err (PathError "readdir" EmptyString "not a directory") |}.

Definition directory (names : list string) : Node :=
  {| data := EmptyString;
     readErr := Some (PathError "read" EmptyString "is a directory");
     dirNames := Ok names |}.

Fixpoint lookupNode (files : list (string * Node)) (name : string) : result Node :=
  match files with
  | [] => Err (PathError "open" name "file does not exist")
  | (path, n) :: rest => if String.eqb path name then Ok n else lookupNode rest name
  end.

(** Modelled from the spec: [filepath.Join] (package path/filepath is not
    under src/) as the non-empty elements joined by slashes, which is what
    it answers for elements that are clean paths already. *)
Definition joinPath (elem : list string) : string :=
  String.concat "/" (filter (fun e => negb (String.eqb e EmptyString)) elem).

Definition hexVal (c : ascii) : option N :=
  match digitVal c with
  | Some v => if v <? 16 then Some (Z.to_N v) else None
  | None => None
  end.

Definition byteOfN (n : N) : Byte.byte :=
  match Byte.of_N n with
  | Some b => b
  | None => Byte.x00
  end.

Definition hexPair (s : string) : option Byte.byte :=
  match s with
  | String hi (String lo EmptyString) =>
      match hexVal hi, hexVal lo with
      | Some h, Some l => Some (byteOfN (16 * h + l))
      | _, _ => None
      end
  | _ => None
  end.

Fixpoint hexPairs (groups : list string) : option (list Byte.byte) :=
  match groups with
  | [] => Some []
  | g :: rest =>
      match hexPair g, hexPairs rest with
      | Some b, Some bs => Some (b :: bs)
      | _, _ => None
      end
  end.

(** Modelled from the spec: [ParseMAC] (net/mac.go is not under src/) on
    the canonical form that [readInterface] builds, six pairs of
    hexadecimal digits joined by colons; any other text fails
    physical-address validation. *)
Definition parseMAC (s : string) : result HardwareAddr :=
  let groups := Split s ":"%char in
  match hexPairs groups with
  | Some bytes =>
      if (List.length bytes =? 6)%nat then Ok bytes
      else Err (errors_New ("invalid MAC address: " ++ s))
  | None => Err (errors_New ("invalid MAC address: " ++ s))
  end.

Fixpoint octets (fields : list string) : option (list Byte.byte) :=
  match fields with
  | [] => Some []
  | f :: rest =>
      match ParseUint f 10 8, octets rest with
      | Ok n, Some bs => Some (byteOfN (Z.to_N n) :: bs)
      | _, _ => None
      end
  end.

(** Modelled from the spec: [ParseIP] (net/ip.go is not under src/) on
    dotted-decimal IPv4 text, answering the four bytes; any other text is
    no valid address. *)
Definition parseIP (s : string) : IP :=
  match octets (Split s "."%char) with
  | Some bytes => if (List.length bytes =? 4)%nat then Some bytes else None
  | None => None
  end.

(** An environment over a list of files. *)
Definition envOf (a : GOARCH) (stale : bool) (files : list (string * Node)) : Env :=
  {| arch := a;
     netdir := "/net";
     fs := lookupNode files;
     filepath_Join := joinPath;
     ParseMAC := parseMAC;
     ParseIP := parseIP;
     staleToken := stale |}.

(** The status file of an interface: the status line, then one address
    line that begins with a tab. *)
Definition statusText (statusLine ipLine : string) : string :=
  statusLine ++ nl ++ ipLine ++ nl.

(** Three interfaces "0", "1", "2" on three ethernet devices, and a stray
    entry "5" without a predecessor. *)
Definition threeInterfaces : list (string * Node) :=
  [ ("/net/ipifc", directory ["clone"; "stats"; "1"; "0"; "5"; "2"]);
    ("/net/ipifc/0/status",
     textFile (statusText "up /net/ether0 X 1500" (ht ++ "10.0.0.5 255.255.255.0" ++ ht)));
    ("/net/ipifc/1/status",
     textFile (statusText "up /net/ether1 X 1500" (ht ++ "10.0.1.5 255.255.255.0" ++ ht)));
    ("/net/ipifc/2/status",
     textFile (statusText "up /net/ether2 X 9000" (ht ++ "10.0.2.5 255.255.255.0" ++ ht)));
    ("/net/ether0/addr", textFile "0011223344aa");
    ("/net/ether1/addr", textFile ("0011223344bb" ++ nl));
    ("/net/ether2/addr", textFile ("0011223344cc" ++ nl)) ].

(** ** Vocabulary of the specification *)

(** [names] holds the decimal texts of all of [0], ..., [k - 1]. *)
Definition holdsRun (names : list string) (k : Z) : Prop :=
  forall i, 0 <= i < k -> In (Itoa i) names.

(** The number that the decimal digits [d] write after the number [n]: the
    digits of [n] followed by those of [d]. *)
Fixpoint decimalValue (d : Decimal.uint) (n : Z) : Z :=
  match d with
  | Decimal.Nil => n
  | Decimal.D0 d => decimalValue d (n * 10 + 0)
  | Decimal.D1 d => decimalValue d (n * 10 + 1)
  | Decimal.D2 d => decimalValue d (n * 10 + 2)
  | Decimal.D3 d => decimalValue d (n * 10 + 3)
  | Decimal.D4 d => decimalValue d (n * 10 + 4)
  | Decimal.D5 d => decimalValue d (n * 10 + 5)
  | Decimal.D6 d => decimalValue d (n * 10 + 6)
  | Decimal.D7 d => decimalValue d (n * 10 + 7)
  | Decimal.D8 d => decimalValue d (n * 10 + 8)
  | Decimal.D9 d => decimalValue d (n * 10 + 9)
  end.

(** A string of decimal digits, at least one. *)
Definition isDecimalDigit (c : ascii) : bool :=
  let n := Z.of_N (N_of_ascii c) in (48 <=? n) && (n <=? 57).

Fixpoint allDecimalDigits (s : string) : bool :=
  match s with
  | EmptyString => true
  | String c s' => isDecimalDigit c && allDecimalDigits s'
  end.

Definition isDecimalNumber (s : string) : bool :=
  negb (String.eqb s EmptyString) && allDecimalDigits s.

(** The status file of the interface called [name], and the address file
    of a device. *)
Definition statusPath (E : Env) (name : string) : string :=
  filepath_Join E [netdir E; "ipifc"; name; "status"].

Definition addrPath (E : Env) (device : string) : string :=
  filepath_Join E [device; "addr"].

Definition opened (name : string) (n : Node) : File :=
  {| File_Name := name; File_node := n |}.

(** What one [Scan] and what two [Scan]s of a fresh scanner leave as the
    text and as the error. *)
Definition firstLine (E : Env) (f : File) : string * option error :=
  let scanner := snd (Scan (NewScanner E f)) in
  (Text scanner, Scanner_Err scanner).

Definition secondLine (E : Env) (f : File) : string * option error :=
  let scanner := snd (Scan (snd (Scan (NewScanner E f)))) in
  (Text scanner, Scanner_Err scanner).

(** A line as a text file holds it: no newline inside, no carriage return
    at its end, and short enough for the buffer of the scanner. *)
Definition plainLine (line : string) : Prop :=
  cutLine line = None /\ dropCR line = line /\ tooLong line = false.

(** The two format errors of [readInterface] and those of
    [interfaceAddrTable]. *)
Definition invalidStatus (file : string) : error :=
  errors_New ("Invalid status file of interface: " ++ file).

Definition invalidHardwareAddress : error :=
  errors_New "Interface has invalid hardware address".

Definition cannotParseIP : error :=
  errors_New "Cannot parse IP address for interface".

Definition unableToParseIP : error :=
  errors_New "Unable to parse IP address for interface".

(** The canonical form of a raw hardware address in the words of the
    specification: six groups of two characters joined by colons. *)
Definition colonPairs (address : string) : string :=
  String.concat ":"
    [substring 0 2 address; substring 2 2 address; substring 4 2 address;
     substring 6 2 address; substring 8 2 address; substring 10 2 address].

(** The record that [readInterface] assembles. *)
Definition record (E : Env) (id mtu : Z) (hw : HardwareAddr) : Interface :=
  {| Index := int_add (arch E) id 1;
     MTU := int_of_int64 (arch E) mtu;
     Name := Itoa id;
     HardwareAddress := hw;
     Flags := Z.lor (Z.lor FlagUp FlagBroadcast) FlagLoopback |}.

(** The reads of [readInterface] for position [id] go through: the status
    file opens and its first line is [status], whose second field is
    [device] and whose fourth field is [mtuStr], read as the number [mtu];
    the address file of the device opens and its first line is
    [address]. *)
Definition reads (E : Env) (id : Z) (status device mtuStr : string) (mtu : Z)
    (address : string) : Prop :=
  exists statusNode addrNode,
    fs E (statusPath E (Itoa id)) = Ok statusNode /\
    firstLine E (opened (statusPath E (Itoa id)) statusNode) = (status, None) /\
    nth_error (Split status space) 1 = Some device /\
    nth_error (Split status space) 3 = Some mtuStr /\
    ParseInt mtuStr 10 64 = Ok mtu /\
    fs E (addrPath E device) = Ok addrNode /\
    firstLine E (opened (addrPath E device) addrNode) = (address, None).

(** The textual IP address of an address line in the words of the
    specification: the first space-delimited token of the second
    tab-delimited field. *)
Definition ipToken (line : string) : string :=
  hd EmptyString (Split (nth 1 (Split line tab) EmptyString) space).

Definition beginsWithTab (line : string) : bool :=
  match line with
  | String c _ => Ascii.eqb c tab
  | EmptyString => false
  end.

(** The interfaces that [interfaceAddrTable] works on: the one given, or
    else those of the full listing. *)
Definition resolved (E : Env) (ifi : option Interface) (ifaces : list Interface) : Prop :=
  match ifi with
  | Some i => ifaces = [i]
  | None => interfaceTable E 0 = Return ifaces
  end.

(** The address line of [iface] is [line]: its status file opens and two
    [Scan]s leave [line] and no error. *)
Definition addressLine (E : Env) (iface : Interface) (line : string) : Prop :=
  exists statusNode,
    fs E (statusPath E (Name iface)) = Ok statusNode /\
    secondLine E (opened (statusPath E (Name iface)) statusNode) = (line, None).

(** The address record made from an address line. *)
Definition addressOf (E : Env) (line : string) : Addr :=
  Some {| IPAddr_IP := ParseIP E (ipToken line); Zone := EmptyString |}.

(** The enumeration directory. *)
Definition ipifcPath (E : Env) : string :=
  filepath_Join E [netdir E; "ipifc"].

(** The listing of the enumeration directory is [names], and its length is
    an [int], as the length of every Go slice is. *)
Definition lists (E : Env) (names : list string) : Prop :=
  exists ipifc,
    fs E (ipifcPath E) = Ok ipifc /\
    dirNames ipifc = Ok names /\
    Z.of_nat (List.length names) <= maxInt (arch E).

(** One turn of the loop of [interfaceAddrTable] without the slice that it
    fills: the address of one interface. *)
Definition addressStep (E : Env) (iface : Interface) : outcome Addr :=
  statusFile <- try (os_Open E (filepath_Join E [netdir E; "ipifc"; Name iface; "status"])) ;;
  let scanner := NewScanner E statusFile in
  let scanner := snd (Scan scanner) in
  let scanner := snd (Scan scanner) in
  check (Scanner_Err scanner) ;;;
  let ipline := Text scanner in
  first <- slice ipline 0 1 ;;
  if negb (String.eqb first (String tab EmptyString)) then
    Throw (errors_New "Cannot parse IP address for interface")
  else
  field <- index (Split ipline tab) 1 ;;
  ipaddr <- index (Split field space) 0 ;;
  let ip := ParseIP E ipaddr in
  let addr := {| IPAddr_IP := ip; Zone := EmptyString |} in
  match IPAddr_IP addr with
  | None => Throw (errors_New "Unable to parse IP address for interface")
  | Some _ => Return (Some addr)
  end.

(** The lists of a sequence of calls put end to end; the first call that
    returns no list decides. *)
Fixpoint collect {A : Type} (calls : list (outcome (list A))) : outcome (list A) :=
  match calls with
  | [] => Return []
  | call :: rest =>
      l <- call ;;
      ls <- collect rest ;;
      Return (l ++ ls)%list
  end.

(** Interface "0" whose address line holds a token that is no IP
    address. *)
Definition badToken : list (string * Node) :=
  [ ("/net/ipifc", directory ["0"]);
    ("/net/ipifc/0/status",
     textFile (statusText "up /net/ether0 X 1500" (ht ++ "none 255.255.255.0" ++ ht)));
    ("/net/ether0/addr", textFile ("0011223344aa" ++ nl)) ].

(** A directory of interfaces that begins at "1". *)
Definition noZero : list (string * Node) :=
  [ ("/net/ipifc", directory ["clone"; "stats"; "1"; "2"]);
    ("/net/ipifc/1/status",
     textFile (statusText "up /net/ether1 X 1500" (ht ++ "10.0.1.5 255.255.255.0" ++ ht)));
    ("/net/ether1/addr", textFile ("0011223344bb" ++ nl)) ].

(** Interface "0" with other words in the fields of the status line that
    stand beside the device and the MTU, and with a field more. *)
Definition otherFields : list (string * Node) :=
  [ ("/net/ipifc", directory ["0"]);
    ("/net/ipifc/0/status",
     textFile (statusText "down /net/ether0 Y 1500 more" (ht ++ "10.9.9.9 /24" ++ ht)));
    ("/net/ether0/addr", textFile "0011223344aa") ].

(** Interface "0" with an empty status file. *)
Definition emptyStatus : list (string * Node) :=
  [ ("/net/ipifc", directory ["0"]);
    ("/net/ipifc/0/status", textFile EmptyString);
    ("/net/ether0/addr", textFile ("0011223344aa" ++ nl)) ].

(** An interface called "0" that no listing returned. *)
Definition madeUp : Interface :=
  {| Index := 99; MTU := 0; Name := "0"; HardwareAddress := []; Flags := 0 |}.

(** The three interfaces listed in another order and with a name twice. *)
Definition threeShuffled : list (string * Node) :=
  [ ("/net/ipifc", directory ["2"; "5"; "0"; "stats"; "1"; "clone"; "2"]) ].

(** ** More files for the examples *)

(** Interface "0" with a negative number in the MTU field. *)
Definition negativeMTU : list (string * Node) :=
  [ ("/net/ipifc", directory ["0"; "clone"; "stats"]);
    ("/net/ipifc/0/status",
     textFile (statusText "up /net/ether0 X -5" (ht ++ "10.0.0.5 255.255.255.0" ++ ht)));
    ("/net/ether0/addr", textFile ("0011223344aa" ++ nl)) ].

(** Interface "0" with a word in the MTU field. *)
Definition wordMTU : list (string * Node) :=
  [ ("/net/ipifc", directory ["0"]);
    ("/net/ipifc/0/status", textFile ("up /net/ether0 X big" ++ nl));
    ("/net/ether0/addr", textFile ("0011223344aa" ++ nl)) ].

(** Interface "0" whose status line has three fields only. *)
Definition threeFields : list (string * Node) :=
  [ ("/net/ipifc", directory ["0"]);
    ("/net/ipifc/0/status", textFile ("up /net/ether0 1500" ++ nl));
    ("/net/ether0/addr", textFile ("0011223344aa" ++ nl)) ].

(** Interface "0" on a device whose address file holds [address]. *)
Definition withAddress (address : string) : list (string * Node) :=
  [ ("/net/ipifc", directory ["0"]);
    ("/net/ipifc/0/status",
     textFile (statusText "up /net/ether0 X 1500" (ht ++ "10.0.0.5 255.255.255.0" ++ ht)));
    ("/net/ether0/addr", textFile (address ++ nl)) ].

(** Interface "0" whose status file has [ipLine] as its second line. *)
Definition withAddressLine (ipLine : string) : list (string * Node) :=
  [ ("/net/ipifc", directory ["0"]);
    ("/net/ipifc/0/status", textFile (statusText "up /net/ether0 X 1500" ipLine));
    ("/net/ether0/addr", textFile ("0011223344aa" ++ nl)) ].

(** Three listed interfaces of which "1" has no device address file. *)
Definition missingAddrFile : list (string * Node) :=
  [ ("/net/ipifc", directory ["0"; "1"; "2"]);
    ("/net/ipifc/0/status", textFile ("up /net/ether0 X 1500" ++ nl));
    ("/net/ipifc/1/status", textFile ("up /net/ether1 X 1500" ++ nl));
    ("/net/ipifc/2/status", textFile ("up /net/ether2 X 1500" ++ nl));
    ("/net/ether0/addr", textFile ("0011223344aa" ++ nl));
    ("/net/ether2/addr", textFile ("0011223344cc" ++ nl)) ].

(** The environments of the examples, on amd64 and with the current
    bufio. *)
Definition exampleEnv (files : list (string * Node)) : Env :=
  envOf amd64 false files.

(** The records of the three interfaces of [threeInterfaces]. *)
Definition threeRecords : list Interface :=
  [ record (exampleEnv threeInterfaces) 0 1500
      [Byte.x00; Byte.x11; Byte.x22; Byte.x33; Byte.x44; Byte.xaa];
    record (exampleEnv threeInterfaces) 1 1500
      [Byte.x00; Byte.x11; Byte.x22; Byte.x33; Byte.x44; Byte.xbb];
    record (exampleEnv threeInterfaces) 2 9000
      [Byte.x00; Byte.x11; Byte.x22; Byte.x33; Byte.x44; Byte.xcc] ].

(** The address line that the specification gives as its example, and the
    same line with the tab that the program asks for in front. *)
Definition specLine : string :=
  "flags" ++ ht ++ "10.0.0.5 255.255.255.0" ++ ht.

Definition tabbedLine : string :=
  ht ++ "10.0.0.5 255.255.255.0" ++ ht.

(** * Properties *)

(** ** Machine integers and decimal text *)

Lemma intSize_pos (a : GOARCH) : 0 < intSize a.
Proof. destruct a; simpl; lia. Qed.

Lemma wrap_small (w x : Z) :
  0 < w -> - 2 ^ (w - 1) <= x < 2 ^ (w - 1) -> wrap w x = x.
Proof.
  intros Hw Hx. unfold wrap.
  assert (Hpow : 2 ^ w = 2 * 2 ^ (w - 1)).
  { replace w with (Z.succ (w - 1)) at 1 by lia. apply Z.pow_succ_r. lia. }
  rewrite Z.mod_small by lia. lia.
Qed.

Lemma int_add_small (a : GOARCH) (x y : Z) :
  minInt a <= x + y <= maxInt a -> int_add a x y = x + y.
Proof.
  unfold minInt, maxInt, int_add. intros H.
  apply wrap_small; [apply intSize_pos | lia].
Qed.

Lemma maxInt_pos (a : GOARCH) : 0 < maxInt a.
Proof. destruct a; vm_compute; reflexivity. Qed.

Lemma minInt_neg (a : GOARCH) : minInt a < 0.
Proof. destruct a; vm_compute; reflexivity. Qed.

(** In [w >= 1] bits, adding one never gives the number back. *)
Lemma int_add_one_neq (a : GOARCH) (x : Z) : int_add a x 1 <> x.
Proof.
  unfold int_add, wrap. intros H.
  pose proof (intSize_pos a) as Hw.
  set (h := 2 ^ (intSize a - 1)) in *.
  assert (Hh : 0 < h) by (apply Z.pow_pos_nonneg; lia).
  assert (Hpow : 2 ^ intSize a = 2 * h).
  { unfold h. replace (intSize a) with (Z.succ (intSize a - 1)) at 1 by lia.
    apply Z.pow_succ_r. lia. }
  rewrite Hpow in H.
  pose proof (Z.div_mod (x + 1 + h) (2 * h) ltac:(lia)) as Hdm.
  pose proof (Z.mod_pos_bound (x + 1 + h) (2 * h) ltac:(lia)) as Hb.
  set (q := (x + 1 + h) / (2 * h)) in *.
  assert (Hq : 2 * h * q = 1) by lia.
  assert (q = 0 \/ q < 0 \/ 0 < q) as [Hq0 | [Hq0 | Hq0]] by lia; nia.
Qed.

Lemma to_int_nonnil (z : Z) :
  Z.to_int z <> Decimal.Pos Decimal.Nil /\ Z.to_int z <> Decimal.Neg Decimal.Nil.
Proof.
  destruct z as [|p|p]; simpl; split; try discriminate;
    intros H; injection H as H; exact (DecimalPos.Unsigned.to_uint_nonnil p H).
Qed.

(** Distinct numbers have distinct decimal texts. *)
Lemma Itoa_inj (x y : Z) : Itoa x = Itoa y -> x = y.
Proof.
  unfold Itoa. intros H.
  apply DecimalZ.to_int_inj.
  destruct (to_int_nonnil x) as [Hx1 Hx2].
  destruct (to_int_nonnil y) as [Hy1 Hy2].
  pose proof (NilZero.isi _ Hx1 Hx2) as Ix.
  pose proof (NilZero.isi _ Hy1 Hy2) as Iy.
  rewrite H in Ix. rewrite Ix in Iy. now injection Iy.
Qed.

(** ** ParseInt reads what Itoa writes *)

Lemma of_uint_acc_value (d : Decimal.uint) :
  forall acc, Z.pos (Pos.of_uint_acc d acc) = decimalValue d (Z.pos acc).
Proof.
  induction d; intros acc; cbn [Pos.of_uint_acc decimalValue];
    try reflexivity; rewrite IHd; f_equal; lia.
Qed.

Lemma of_uint_value (d : Decimal.uint) :
  Z.of_N (Pos.of_uint d) = decimalValue d 0.
Proof.
  induction d; cbn [Pos.of_uint decimalValue Z.of_N]; try reflexivity;
    try assumption; apply of_uint_acc_value.
Qed.

Lemma decimalValue_ge (d : Decimal.uint) :
  forall n, 0 <= n -> n <= decimalValue d n.
Proof.
  induction d; intros n Hn; cbn [decimalValue]; try lia;
    match goal with
    | |- _ <= decimalValue _ ?m => pose proof (IHd m ltac:(lia)); lia
    end.
Qed.

(** The digit loop reads the digits of a decimal number one by one. *)
Lemma ParseUint_loop_digits (s0 : string) (d : Decimal.uint) :
  forall n, 0 <= n -> decimalValue d n <= 2 ^ 64 - 1 ->
    ParseUint_loop s0 (NilEmpty.string_of_uint d) 10
      ((2 ^ 64 - 1) / 10 + 1) (2 ^ 64 - 1) n
    = Ok (decimalValue d n).
Proof.
  change ((2 ^ 64 - 1) / 10 + 1) with 1844674407370955162.
  change (2 ^ 64 - 1) with 18446744073709551615.
  induction d; intros n Hn Hmax;
    cbn [NilEmpty.string_of_uint ParseUint_loop decimalValue] in *;
    try reflexivity;
    match goal with
    | |- context [digitVal ?c] =>
        let v := eval vm_compute in (digitVal c) in
        change (digitVal c) with v; cbv iota beta
    end;
    match goal with
    | H : decimalValue d ?m <= _ |- _ =>
        pose proof (decimalValue_ge d m ltac:(lia));
        change (10 <=? _) with false; cbv iota;
        destruct (Z.leb_spec 1844674407370955162 n); [lia|];
        cbv zeta;
        destruct (Z.ltb_spec 18446744073709551615 m); [lia|];
        apply IHd; [lia|assumption]
    end.
Qed.

Lemma string_of_uint_head (d : Decimal.uint) :
  d <> Decimal.Nil ->
  exists c rest,
    NilEmpty.string_of_uint d = String c rest /\
    Ascii.eqb c "+" = false /\ Ascii.eqb c "-" = false.
Proof.
  destruct d; intros Hd; [contradiction| | | | | | | | | |];
    cbn [NilEmpty.string_of_uint]; eexists; eexists;
    (split; [reflexivity|split; reflexivity]).
Qed.

Lemma string_of_uint_nonnil (d : Decimal.uint) :
  d <> Decimal.Nil -> NilZero.string_of_uint d = NilEmpty.string_of_uint d.
Proof. destruct d; [contradiction|..]; reflexivity. Qed.

(** A positive number in the 64-bit range, written in decimal and read as
    an unsigned number. *)
Lemma ParseUint_to_uint (p : positive) :
  Z.pos p <= 2 ^ 64 - 1 ->
  ParseUint (NilEmpty.string_of_uint (Pos.to_uint p)) 10 64 = Ok (Z.pos p).
Proof.
  intros Hp.
  assert (Hval : decimalValue (Pos.to_uint p) 0 = Z.pos p).
  { rewrite <- of_uint_value, DecimalPos.Unsigned.of_to. reflexivity. }
  destruct (string_of_uint_head (Pos.to_uint p)
              (DecimalPos.Unsigned.to_uint_nonnil p)) as [c [rest [Hs _]]].
  unfold ParseUint. rewrite Hs, <- Hs.
  rewrite ParseUint_loop_digits; [now rewrite Hval|lia|now rewrite Hval].
Qed.

(** [ParseInt] in base 10 and 64 bits reads back every 64-bit number from
    the text that [Itoa] writes for it. *)
Lemma ParseInt_Itoa (z : Z) :
  - 2 ^ 63 <= z <= 2 ^ 63 - 1 -> ParseInt (Itoa z) 10 64 = Ok z.
Proof.
  intros Hz. destruct z as [|p|p].
  - reflexivity.
  - unfold Itoa. cbn [Z.to_int NilZero.string_of_int].
    rewrite string_of_uint_nonnil by apply DecimalPos.Unsigned.to_uint_nonnil.
    destruct (string_of_uint_head (Pos.to_uint p)
                (DecimalPos.Unsigned.to_uint_nonnil p)) as [c [rest [Hs [Hplus Hminus]]]].
    unfold ParseInt. rewrite Hs, Hplus, Hminus. cbn [orb]. rewrite <- Hs.
    rewrite ParseUint_to_uint by lia. cbn [negb andb].
    change (2 ^ (64 - 1)) with (2 ^ 63).
    destruct (Z.leb_spec (2 ^ 63) (Z.pos p)); [lia|reflexivity].
  - unfold Itoa. cbn [Z.to_int NilZero.string_of_int].
    rewrite string_of_uint_nonnil by apply DecimalPos.Unsigned.to_uint_nonnil.
    unfold ParseInt. change (Ascii.eqb "-" "-") with true.
    change (Ascii.eqb "-" "+") with false. cbn [orb].
    rewrite ParseUint_to_uint by lia. cbn [negb andb].
    change (2 ^ (64 - 1)) with (2 ^ 63).
    destruct (Z.ltb_spec (2 ^ 63) (Z.pos p)); [lia|reflexivity].
Qed.

Lemma digitVal_nonneg (c : ascii) (v : Z) : digitVal c = Some v -> 0 <= v.
Proof.
  unfold digitVal.
  repeat match goal with
         | |- context [(?a <=? ?b) && (?c <=? ?d)] =>
             destruct (Z.leb_spec a b); destruct (Z.leb_spec c d); cbn [andb]
         end; intros [= <-]; lia.
Qed.

Lemma ParseUint_loop_nonneg (s0 s : string) (base cutoff maxVal : Z) :
  0 <= base ->
  forall n m, 0 <= n ->
    ParseUint_loop s0 s base cutoff maxVal n = Ok m -> 0 <= m.
Proof.
  intros Hbase. induction s as [|c s IH]; intros n m Hn; cbn [ParseUint_loop].
  - now intros [= <-].
  - destruct (digitVal c) as [v|] eqn:Hv; [|discriminate].
    pose proof (digitVal_nonneg c v Hv).
    destruct (base <=? v); [discriminate|].
    destruct (cutoff <=? n); [discriminate|]. cbv zeta.
    destruct (maxVal <? n * base + v); [discriminate|].
    apply IH. nia.
Qed.

(** What [ParseInt] reads in 64 bits is a 64-bit number. *)
Lemma ParseInt_range (s : string) (m : Z) :
  ParseInt s 10 64 = Ok m -> - 2 ^ 63 <= m <= 2 ^ 63 - 1.
Proof.
  unfold ParseInt. destruct s as [|c s]; [discriminate|].
  cbv zeta. change (2 ^ (64 - 1)) with (2 ^ 63).
  set (digits := if (Ascii.eqb c "+" || Ascii.eqb c "-")%bool then s else String c s).
  destruct (ParseUint digits 10 64) as [un|e] eqn:Hun.
  2:{ destruct (isRangeError e); discriminate. }
  assert (Hpos : 0 <= un).
  { unfold ParseUint in Hun. destruct digits; [discriminate|].
    apply ParseUint_loop_nonneg in Hun; lia. }
  destruct (Ascii.eqb c "-"); cbn [negb andb].
  - destruct (Z.ltb_spec (2 ^ 63) un); [discriminate|]. intros [= <-]. lia.
  - destruct (Z.leb_spec (2 ^ 63) un); [discriminate|]. intros [= <-]. lia.
Qed.

Lemma digitVal_decimal (c : ascii) (v : Z) :
  digitVal c = Some v -> v < 10 -> isDecimalDigit c = true.
Proof.
  unfold digitVal, isDecimalDigit. cbv zeta.
  destruct ((48 <=? Z.of_N (N_of_ascii c)) && (Z.of_N (N_of_ascii c) <=? 57));
    [reflexivity|].
  repeat match goal with
         | |- context [(?a <=? ?b) && (?c <=? ?d)] =>
             destruct (Z.leb_spec a b); destruct (Z.leb_spec c d); cbn [andb]
         end; intros [= <-]; lia.
Qed.

Lemma ParseUint_loop_decimal (s0 s : string) (cutoff maxVal : Z) :
  forall n m, ParseUint_loop s0 s 10 cutoff maxVal n = Ok m ->
              allDecimalDigits s = true.
Proof.
  induction s as [|c s IH]; intros n m; cbn [ParseUint_loop allDecimalDigits];
    [reflexivity|].
  destruct (digitVal c) as [v|] eqn:Hv; [|discriminate].
  destruct (Z.leb_spec 10 v); [discriminate|].
  destruct (cutoff <=? n); [discriminate|]. cbv zeta.
  destruct (maxVal <? n * 10 + v); [discriminate|].
  intros Hloop. rewrite (digitVal_decimal c v Hv) by assumption.
  exact (IH _ _ Hloop).
Qed.

(** What [ParseInt] accepts in base 10 is a decimal number, after a plus
    or a minus sign or after none; every other text is an error. *)
Lemma ParseInt_numeric (s : string) (m : Z) :
  ParseInt s 10 64 = Ok m ->
  isDecimalNumber s = true \/
  exists digits, (s = String "+" digits \/ s = String "-" digits) /\
                 isDecimalNumber digits = true.
Proof.
  unfold ParseInt. destruct s as [|c s]; [discriminate|]. cbv zeta.
  assert (Hnum : forall t un, ParseUint t 10 64 = Ok un -> isDecimalNumber t = true).
  { intros t un Hun. unfold ParseUint in Hun. destruct t as [|a t]; [discriminate|].
    unfold isDecimalNumber. cbn [String.eqb negb andb].
    exact (ParseUint_loop_decimal _ _ _ _ _ _ Hun). }
  destruct (Ascii.eqb_spec c "+") as [->|Hplus]; cbn [orb].
  - destruct (ParseUint s 10 64) as [un|e] eqn:Hun.
    + intros _. right. exists s. split; [now left|exact (Hnum s un Hun)].
    + destruct (isRangeError e); discriminate.
  - destruct (Ascii.eqb_spec c "-") as [->|Hminus].
    + destruct (ParseUint s 10 64) as [un|e] eqn:Hun.
      * intros _. right. exists s. split; [now right|exact (Hnum s un Hun)].
      * destruct (isRangeError e); discriminate.
    + destruct (ParseUint (String c s) 10 64) as [un|e] eqn:Hun.
      * intros _. left. exact (Hnum _ un Hun).
      * destruct (isRangeError e); discriminate.
Qed.

(** On amd64 the conversion of an [int64] to [int] changes nothing. *)
Lemma int_of_int64_amd64 (m : Z) :
  - 2 ^ 63 <= m <= 2 ^ 63 - 1 -> int_of_int64 amd64 m = m.
Proof.
  intros Hm. unfold int_of_int64. apply wrap_small; simpl; lia.
Qed.

(** ** Split *)

Lemma Split_nonempty (s : string) (sep : ascii) :
  exists piece pieces, Split s sep = piece :: pieces.
Proof.
  induction s as [|c s [piece [pieces IH]]]; simpl; [eauto|].
  destruct (Ascii.eqb c sep); [eauto|]. rewrite IH. eauto.
Qed.

(** Joining the pieces with the separator gives the text back. *)
Lemma Split_concat (s : string) (sep : ascii) :
  String.concat (String sep EmptyString) (Split s sep) = s.
Proof.
  induction s as [|c s IH]; [reflexivity|]. cbn [Split].
  destruct (Split_nonempty s sep) as [piece [pieces Hs]]. rewrite Hs in *.
  destruct (Ascii.eqb_spec c sep) as [->|Hne].
  - destruct pieces; simpl in *; now rewrite IH.
  - destruct pieces; simpl in *; now rewrite IH.
Qed.

(** No piece holds the separator. *)
Lemma Split_pieces (s : string) (sep : ascii) :
  forall piece, In piece (Split s sep) ->
    forall i, String.get i piece <> Some sep.
Proof.
  induction s as [|c s IH]; intros piece Hin i; cbn [Split] in Hin.
  - destruct Hin as [<-|[]]. now destruct i.
  - destruct (Split_nonempty s sep) as [p [ps Hs]]. rewrite Hs in *.
    destruct (Ascii.eqb_spec c sep) as [->|Hne].
    + destruct Hin as [<-|Hin]; [now destruct i|now apply IH].
    + destruct Hin as [<-|Hin].
      * destruct i as [|i]; cbn [String.get].
        -- intros [= Heq]. contradiction.
        -- apply IH. now left.
      * apply IH. now right.
Qed.

(** ** The scanner on the lines of a file *)

Lemma cutLine_line (line rest : string) :
  cutLine line = None ->
  cutLine (line ++ nl ++ rest) = Some (line, rest).
Proof.
  induction line as [|c line IH]; intros Hcut; [reflexivity|].
  cbn [append cutLine] in *.
  destruct (Ascii.eqb c "010"); [discriminate|].
  destruct (cutLine line) as [[l r]|]; [discriminate|].
  now rewrite IH.
Qed.

(** [Scan] on an input that begins with a line and its newline. *)
Lemma Scan_line (s : Scanner) (line rest : string) :
  cutLine line = None -> tooLong line = false ->
  unread s = (line ++ nl ++ rest)%string ->
  Scan s = (true, {| unread := rest; srcErr := srcErr s; finished := finished s;
                     token := dropCR line; err := err s;
                     keepsToken := keepsToken s |}).
Proof.
  intros Hcut Hlong Hs. unfold Scan.
  now rewrite Hs, (cutLine_line line rest Hcut), Hlong.
Qed.

(** A file that begins with a plain line and a newline: the first [Scan]
    leaves that line. *)
Lemma firstLine_plain (E : Env) (name : string) (n : Node) (line rest : string) :
  plainLine line ->
  data n = (line ++ nl ++ rest)%string ->
  firstLine E (opened name n) = (line, None).
Proof.
  intros [Hcut [Hcr Hlong]] Hdata. unfold firstLine.
  rewrite (Scan_line _ line rest Hcut Hlong) by exact Hdata.
  cbn [snd Text Scanner_Err token err NewScanner]. now rewrite Hcr.
Qed.

(** A file that begins with two plain lines, each with its newline: the
    second [Scan] leaves the second line. *)
Lemma secondLine_plain (E : Env) (name : string) (n : Node)
    (line1 line2 rest : string) :
  plainLine line1 -> plainLine line2 ->
  data n = (line1 ++ nl ++ line2 ++ nl ++ rest)%string ->
  secondLine E (opened name n) = (line2, None).
Proof.
  intros [Hcut1 [_ Hlong1]] [Hcut2 [Hcr2 Hlong2]] Hdata. unfold secondLine.
  rewrite (Scan_line (NewScanner E (opened name n)) line1
             (line2 ++ nl ++ rest)%string Hcut1 Hlong1) by exact Hdata.
  cbn [snd].
  rewrite (Scan_line _ line2 rest Hcut2 Hlong2) by reflexivity.
  cbn [snd Text Scanner_Err token err NewScanner]. now rewrite Hcr2.
Qed.

(** ** The stub *)

Lemma interfaceMulticastAddrTable_empty (E : Env) (ifi : option Interface) :
  interfaceMulticastAddrTable E ifi = Return [].
Proof. reflexivity. Qed.

(** ** getInterfaceCount *)

Lemma range_found (a : GOARCH) (names : list string) (count : Z) :
  In (Itoa count) names ->
  getInterfaceCount_range a names count = (true, int_add a count 1).
Proof.
  induction names as [|name rest IH]; simpl; intros Hin; [contradiction|].
  destruct (String.eqb_spec name (Itoa count)) as [_|Hne]; [reflexivity|].
  destruct Hin as [Heq|Hin]; [contradiction|auto].
Qed.

Lemma range_missing (a : GOARCH) (names : list string) (count : Z) :
  ~ In (Itoa count) names ->
  getInterfaceCount_range a names count = (false, count).
Proof.
  induction names as [|name rest IH]; simpl; intros Hin; [reflexivity|].
  destruct (String.eqb_spec name (Itoa count)) as [Heq|_].
  - exfalso. apply Hin. now left.
  - apply IH. intros H. apply Hin. now right.
Qed.

(** A listing cannot hold a run longer than itself. *)
Lemma run_bounded (names : list string) (k : Z) :
  0 <= k -> holdsRun names k -> k <= Z.of_nat (List.length names).
Proof.
  intros Hk Hrun.
  set (l := map (fun n => Itoa (Z.of_nat n)) (seq 0 (Z.to_nat k))).
  assert (Hnd : NoDup l).
  { apply Injective_map_NoDup; [|apply seq_NoDup].
    intros x y Hxy. apply Itoa_inj in Hxy. lia. }
  assert (Hincl : incl l names).
  { intros s Hs. apply in_map_iff in Hs as [n [<- Hn]].
    apply in_seq in Hn. apply Hrun. lia. }
  pose proof (NoDup_incl_length Hnd Hincl) as Hlen.
  unfold l in Hlen. rewrite length_map, length_seq in Hlen. lia.
Qed.

(** From [count] on, the loop climbs the run and stops at its end. *)
Lemma loop_reaches (a : GOARCH) (names : list string) (k : Z) :
  k <= maxInt a -> holdsRun names k -> ~ In (Itoa k) names ->
  forall (fuel : nat) (count : Z),
    0 <= count <= k -> (Z.to_nat (k - count) < fuel)%nat ->
    getInterfaceCount_loop a fuel names count = Return k.
Proof.
  intros Hmax Hrun Hend fuel.
  induction fuel as [|fuel IH]; intros count Hc Hfuel; [lia|].
  simpl.
  destruct (Z.eq_dec count k) as [->|Hne].
  - rewrite range_missing by assumption. reflexivity.
  - rewrite range_found by (apply Hrun; lia). simpl.
    pose proof (minInt_neg a).
    rewrite int_add_small by lia.
    apply IH; lia.
Qed.

(** Every listing has a first missing number. *)
Lemma run_ends (names : list string) :
  exists k, 0 <= k /\ holdsRun names k /\ ~ In (Itoa k) names.
Proof.
  assert (H : forall (d : nat) (c : Z),
             0 <= c -> holdsRun names c ->
             (Z.of_nat (List.length names) - c < Z.of_nat d) ->
             exists k, 0 <= k /\ holdsRun names k /\ ~ In (Itoa k) names).
  { induction d as [|d IH]; intros c Hc Hrun Hd.
    - pose proof (run_bounded names c Hc Hrun). lia.
    - destruct (in_dec string_dec (Itoa c) names) as [Hin|Hout].
      + apply (IH (c + 1)); [lia| |lia].
        intros i Hi. destruct (Z.eq_dec i c) as [->|Hne]; [assumption|].
        apply Hrun. lia.
      + exists c. auto. }
  apply (H (S (List.length names)) 0); [lia| |lia].
  intros i Hi. lia.
Qed.

Section CountEntries.

Variable E : Env.
Variable ipifc : Node.
Variable names : list string.

Hypothesis dir_opened : fs E (filepath_Join E [netdir E; "ipifc"]) = Ok ipifc.
Hypothesis dir_listed : dirNames ipifc = Ok names.

(** The length of a Go slice is an [int]. *)
Hypothesis names_fit : Z.of_nat (List.length names) <= maxInt (arch E).

Lemma getInterfaceCount_unfold :
  getInterfaceCount E =
  getInterfaceCount_loop (arch E) (S (List.length names)) names 0.
Proof.
  unfold getInterfaceCount, os_Open, Readdirnames. rewrite dir_opened. simpl.
  rewrite dir_listed. reflexivity.
Qed.

(** C1: when the listing of the enumeration directory holds the decimal
    names of 0, ..., k-1 and not that of k, [getInterfaceCount] returns
    exactly k, whatever other names the listing holds and in whatever
    order; and such a k exists for every listing, so the count is always
    the length of the longest run of decimal names that starts at "0". *)
Theorem getInterfaceCount_is_run_length :
  (forall k, 0 <= k -> holdsRun names k -> ~ In (Itoa k) names ->
             getInterfaceCount E = Return k) /\
  (exists k, 0 <= k /\ holdsRun names k /\ ~ In (Itoa k) names /\
             getInterfaceCount E = Return k).
Proof.
  assert (Hk : forall k, 0 <= k -> holdsRun names k -> ~ In (Itoa k) names ->
                         getInterfaceCount E = Return k).
  { intros k Hk Hrun Hend. rewrite getInterfaceCount_unfold.
    pose proof (run_bounded names k Hk Hrun) as Hb.
    apply loop_reaches; try assumption; lia. }
  split; [exact Hk|].
  destruct (run_ends names) as [k [H0 [Hrun Hend]]].
  exists k. repeat split; auto.
Qed.

End CountEntries.

(** ** readInterface *)

Lemma slice_one (s : string) (i : nat) :
  (i < String.length s)%nat -> slice s i (S i) = Return (substring i 1 s).
Proof.
  intros Hi. unfold slice.
  replace (S i - i)%nat with 1%nat by lia.
  destruct (Nat.leb_spec i (S i)); [|lia].
  destruct (Nat.leb_spec (S i) (String.length s)); [reflexivity|lia].
Qed.

(** The sixteen concatenations of single characters give the six groups
    of two joined by colons. *)
Lemma reformat_colonPairs (address : string) :
  String.length address = 12%nat ->
  ((((((((((((((((substring 0 1 address ++ substring 1 1 address) ++ ":") ++
    substring 2 1 address) ++ substring 3 1 address) ++ ":") ++
    substring 4 1 address) ++ substring 5 1 address) ++ ":") ++
    substring 6 1 address) ++ substring 7 1 address) ++ ":") ++
    substring 8 1 address) ++ substring 9 1 address) ++ ":") ++
    substring 10 1 address) ++ substring 11 1 address)%string
  = colonPairs address.
Proof.
  intros Hlen.
  do 12 (destruct address as [|? address]; [discriminate Hlen|]).
  destruct address; [reflexivity|discriminate Hlen].
Qed.

Section ReadInterface.

Variable E : Env.
Variable id : Z.

Let path : string := statusPath E (Itoa id).

Lemma readInterface_open_fails (e : error) :
  fs E path = Err e -> readInterface E id = Throw e.
Proof.
  intros H. unfold readInterface, os_Open. fold (statusPath E (Itoa id)).
  fold path. rewrite H. reflexivity.
Qed.

Variable statusNode : Node.
Variable status : string.
Hypothesis status_opened : fs E path = Ok statusNode.

Lemma readInterface_status_read_fails (e : error) :
  firstLine E (opened path statusNode) = (status, Some e) ->
  readInterface E id = Throw e.
Proof.
  intros H. unfold readInterface, os_Open. fold (statusPath E (Itoa id)).
  fold path. rewrite status_opened. simpl.
  unfold firstLine, opened in H. injection H as _ He.
  rewrite He. reflexivity.
Qed.

Hypothesis status_read : firstLine E (opened path statusNode) = (status, None).

(** With the status line read, [readInterface] is what follows the read. *)
Lemma readInterface_after_status :
  readInterface E id =
  let statusData := Split status space in
  if lenSlice statusData <? 4 then Throw (invalidStatus path)
  else
    device <- index statusData 1 ;;
    mtuStr <- index statusData 3 ;;
    match ParseInt mtuStr 10 64 with
    | Err _ => Throw (invalidStatus path)
    | Ok mtu =>
        deviceAddrFile <- try (os_Open E (addrPath E device)) ;;
        let address := fst (firstLine E deviceAddrFile) in
        check (snd (firstLine E deviceAddrFile)) ;;;
        if negb (len address =? 12) then Throw invalidHardwareAddress
        else
          hw <- try (ParseMAC E (colonPairs address)) ;;
          Return (record E id mtu hw)
    end.
Proof.
  unfold readInterface, os_Open. fold (statusPath E (Itoa id)).
  fold path. rewrite status_opened.
  unfold firstLine, opened in status_read. injection status_read as Ht He.
  cbn [try bind File_Name]. rewrite He, Ht. cbn [check bind]. cbv zeta.
  destruct (lenSlice (Split status space) <? 4); [reflexivity|].
  destruct (index (Split status space) 1) as [device| | |]; try reflexivity.
  destruct (index (Split status space) 3) as [mtuStr| | |]; try reflexivity.
  cbn [bind].
  destruct (ParseInt mtuStr 10 64) as [mtu|]; [|reflexivity].
  fold (addrPath E device).
  destruct (fs E (addrPath E device)) as [addrNode|e]; [|reflexivity].
  cbn [try bind]. unfold firstLine. cbn [fst snd].
  clear Ht He.
  set (scanner := snd (Scan (NewScanner E _))).
  destruct (Scanner_Err scanner) as [e|]; [reflexivity|].
  cbn [check bind].
  set (address := Text scanner).
  unfold len.
  destruct (Z.eqb_spec (Z.of_nat (String.length address)) 12) as [Hlen|Hlen];
    [|reflexivity].
  cbn [negb].
  assert (Hl : String.length address = 12%nat) by lia.
  rewrite !slice_one by lia. cbn [bind].
  rewrite (reformat_colonPairs address Hl).
  destruct (ParseMAC E (colonPairs address)); reflexivity.
Qed.

End ReadInterface.

Lemma index_nth_error {A : Type} (l : list A) (i : nat) (x : A) :
  nth_error l i = Some x -> index l i = Return x.
Proof. unfold index. now intros ->. Qed.

Lemma enough_fields {A : Type} (l : list A) (i : nat) :
  (lenSlice l <? 4) = false -> (i < 4)%nat -> exists x, nth_error l i = Some x.
Proof.
  unfold lenSlice. intros Hlen Hi. apply Z.ltb_ge in Hlen.
  destruct (nth_error l i) as [x|] eqn:Hx; [now exists x|].
  apply nth_error_None in Hx. lia.
Qed.

Lemma fields_enough {A : Type} (l : list A) (x : A) :
  nth_error l 3 = Some x -> (lenSlice l <? 4) = false.
Proof.
  intros H. apply Z.ltb_ge. unfold lenSlice.
  assert (3 < List.length l)%nat by (apply nth_error_Some; congruence). lia.
Qed.

(** Once its reads go through, [readInterface] depends on the raw
    hardware address alone. *)
Lemma readInterface_reads (E : Env) (id : Z) (status device mtuStr : string)
    (mtu : Z) (address : string) :
  reads E id status device mtuStr mtu address ->
  readInterface E id =
  if (String.length address =? 12)%nat then
    match ParseMAC E (colonPairs address) with
    | Ok hw => Return (record E id mtu hw)
    | Err e => Throw e
    end
  else Throw invalidHardwareAddress.
Proof.
  intros [statusNode [addrNode [Ho [Hl [Hd [Hm [Hp [Ha Hr]]]]]]]].
  rewrite (readInterface_after_status E id statusNode status Ho Hl).
  cbv zeta. rewrite (fields_enough _ _ Hm).
  rewrite (index_nth_error _ _ _ Hd), (index_nth_error _ _ _ Hm).
  cbn [bind]. rewrite Hp. unfold os_Open. rewrite Ha. cbn [try bind].
  fold (opened (addrPath E device) addrNode). rewrite Hr. cbn [fst snd check bind].
  unfold len.
  destruct (Nat.eqb_spec (String.length address) 12) as [Hlen|Hlen].
  - rewrite Hlen. cbn [Z.of_nat]. simpl Z.eqb. cbn [negb].
    destruct (ParseMAC E (colonPairs address)); reflexivity.
  - destruct (Z.eqb_spec (Z.of_nat (String.length address)) 12); [lia|reflexivity].
Qed.

(** [readInterface] ends by returning or by reporting an error: it never
    panics. *)
Lemma readInterface_returns_or_throws (E : Env) (id : Z) :
  (exists r, readInterface E id = Return r) \/
  (exists e, readInterface E id = Throw e).
Proof.
  destruct (fs E (statusPath E (Itoa id))) as [statusNode|e] eqn:Ho.
  2:{ right. exists e. now apply readInterface_open_fails. }
  destruct (firstLine E (opened (statusPath E (Itoa id)) statusNode))
    as [status [e|]] eqn:Hl.
  { right. exists e. now apply (readInterface_status_read_fails E id statusNode status). }
  rewrite (readInterface_after_status E id statusNode status Ho Hl). cbv zeta.
  destruct (lenSlice (Split status space) <? 4) eqn:Hlen; [right; eexists; reflexivity|].
  destruct (enough_fields _ 1%nat Hlen ltac:(lia)) as [device Hd].
  destruct (enough_fields _ 3%nat Hlen ltac:(lia)) as [mtuStr Hm].
  rewrite (index_nth_error _ _ _ Hd), (index_nth_error _ _ _ Hm). cbn [bind].
  destruct (ParseInt mtuStr 10 64) as [mtu|]; [|right; eexists; reflexivity].
  destruct (os_Open E (addrPath E device)) as [f|e]; [|right; eexists; reflexivity].
  cbn [try bind].
  destruct (snd (firstLine E f)) as [e|]; [right; eexists; reflexivity|]. cbn [check bind].
  destruct (negb _); [right; eexists; reflexivity|].
  destruct (ParseMAC E _) as [hw|e]; [left|right]; eexists; reflexivity.
Qed.

(** What a returned record tells about the files. *)
Lemma readInterface_inv (E : Env) (id : Z) (r : Interface) :
  readInterface E id = Return r ->
  exists status device mtuStr mtu address hw,
    reads E id status device mtuStr mtu address /\
    String.length address = 12%nat /\
    ParseMAC E (colonPairs address) = Ok hw /\
    r = record E id mtu hw.
Proof.
  intros Hret.
  destruct (fs E (statusPath E (Itoa id))) as [statusNode|e] eqn:Ho.
  2:{ rewrite (readInterface_open_fails E id e Ho) in Hret. discriminate. }
  destruct (firstLine E (opened (statusPath E (Itoa id)) statusNode))
    as [status [e|]] eqn:Hl.
  { rewrite (readInterface_status_read_fails E id statusNode status Ho e Hl) in Hret.
    discriminate. }
  rewrite (readInterface_after_status E id statusNode status Ho Hl) in Hret.
  cbv zeta in Hret.
  destruct (lenSlice (Split status space) <? 4) eqn:Hlen; [discriminate|].
  destruct (enough_fields _ 1%nat Hlen ltac:(lia)) as [device Hd].
  destruct (enough_fields _ 3%nat Hlen ltac:(lia)) as [mtuStr Hm].
  rewrite (index_nth_error _ _ _ Hd), (index_nth_error _ _ _ Hm) in Hret.
  cbn [bind] in Hret.
  destruct (ParseInt mtuStr 10 64) as [mtu|] eqn:Hp; [|discriminate].
  unfold os_Open in Hret.
  destruct (fs E (addrPath E device)) as [addrNode|e] eqn:Ha; [|discriminate].
  cbn [try bind] in Hret. fold (opened (addrPath E device) addrNode) in Hret.
  destruct (firstLine E (opened (addrPath E device) addrNode))
    as [address [e|]] eqn:Hr; [discriminate|].
  cbn [fst snd check bind] in Hret.
  destruct (Z.eqb_spec (len address) 12) as [Hlen12|]; [|discriminate].
  cbn [negb] in Hret.
  destruct (ParseMAC E (colonPairs address)) as [hw|] eqn:Hmac; [|discriminate].
  cbn [try bind] in Hret. injection Hret as <-.
  exists status, device, mtuStr, mtu, address, hw.
  unfold len in Hlen12.
  repeat split; try assumption; try lia.
  exists statusNode, addrNode. repeat split; assumption.
Qed.

(** The index and the name of a returned record. *)
Lemma record_of_position (E : Env) (id : Z) (r : Interface) :
  0 <= id ->
  readInterface E id = Return r ->
  Index r = int_add (arch E) id 1 /\
  Name r = Itoa id /\
  (id < maxInt (arch E) -> Index r = id + 1).
Proof.
  intros Hid Hret.
  destruct (readInterface_inv E id r Hret)
    as [status [device [mtuStr [mtu [address [hw [_ [_ [_ ->]]]]]]]]].
  cbn [record Index Name]. repeat split.
  intros Hmax. apply int_add_small.
  pose proof (minInt_neg (arch E)). lia.
Qed.

(** C4: a record returned for a non-negative position [id] has the index
    [id + 1] (in Go's [int], and so the number id + 1 itself below the
    largest [int]) and carries the decimal text of [id] as its name. *)
Theorem readInterface_Index_Name (E : Env) (id : Z) (r : Interface) :
  0 <= id ->
  readInterface E id = Return r ->
  Index r = int_add (arch E) id 1 /\
  Name r = Itoa id /\
  (id < maxInt (arch E) -> Index r = id + 1).
Proof. exact (record_of_position E id r). Qed.

(** C5: a raw hardware address of twelve characters is turned into its six
    groups of two characters joined by colons, that text is what
    [ParseMAC] receives, and an error of [ParseMAC] is the error of
    [readInterface]; "0011223344aa" becomes "00:11:22:33:44:aa". *)
Theorem readInterface_reformats_address (E : Env) (id : Z)
    (status device mtuStr : string) (mtu : Z) (address : string) :
  reads E id status device mtuStr mtu address ->
  String.length address = 12%nat ->
  readInterface E id =
    match ParseMAC E (colonPairs address) with
    | Ok hw => Return (record E id mtu hw)
    | Err e => Throw e
    end /\
  colonPairs address =
    (substring 0 2 address ++ ":" ++ substring 2 2 address ++ ":" ++
     substring 4 2 address ++ ":" ++ substring 6 2 address ++ ":" ++
     substring 8 2 address ++ ":" ++ substring 10 2 address)%string /\
  colonPairs "0011223344aa" = "00:11:22:33:44:aa".
Proof.
  intros Hreads Hlen. split; [|split; reflexivity].
  rewrite (readInterface_reads E id status device mtuStr mtu address Hreads).
  now rewrite Hlen.
Qed.

(** C6, as the program has it: the MTU of a returned record is the number
    that [ParseInt] reads in base 10 from the fourth space-delimited field
    of the status line -- decimal digits after a plus sign, a minus sign
    or none -- converted to [int] (on amd64, that number itself).
    A fourth field that [ParseInt] rejects gives the format error that
    names the status file. *)
Theorem readInterface_MTU (E : Env) (id : Z) :
  (forall r, readInterface E id = Return r ->
     exists statusNode status mtuStr mtu,
       fs E (statusPath E (Itoa id)) = Ok statusNode /\
       firstLine E (opened (statusPath E (Itoa id)) statusNode) = (status, None) /\
       nth_error (Split status space) 3 = Some mtuStr /\
       ParseInt mtuStr 10 64 = Ok mtu /\
       (isDecimalNumber mtuStr = true \/
        exists digits, (mtuStr = String "+" digits \/ mtuStr = String "-" digits) /\
                       isDecimalNumber digits = true) /\
       MTU r = int_of_int64 (arch E) mtu /\
       (arch E = amd64 -> MTU r = mtu)) /\
  (forall statusNode status mtuStr e,
     fs E (statusPath E (Itoa id)) = Ok statusNode ->
     firstLine E (opened (statusPath E (Itoa id)) statusNode) = (status, None) ->
     nth_error (Split status space) 3 = Some mtuStr ->
     ParseInt mtuStr 10 64 = Err e ->
     readInterface E id = Throw (invalidStatus (statusPath E (Itoa id))) /\
     isFormatError (invalidStatus (statusPath E (Itoa id))) = true).
Proof.
  split.
  - intros r Hret.
    destruct (readInterface_inv E id r Hret)
      as [status [device [mtuStr [mtu [address [hw [Hreads [_ [_ ->]]]]]]]]].
    destruct Hreads as [statusNode [addrNode [Ho [Hl [Hd [Hm [Hp _]]]]]]].
    exists statusNode, status, mtuStr, mtu.
    split; [assumption|]. split; [assumption|]. split; [assumption|].
    split; [assumption|]. split; [exact (ParseInt_numeric mtuStr mtu Hp)|].
    split; [reflexivity|].
    intros Harch. cbn [record MTU]. rewrite Harch.
    apply int_of_int64_amd64. now apply (ParseInt_range mtuStr).
  - intros statusNode status mtuStr e Ho Hl Hm Hp. split; [|reflexivity].
    rewrite (readInterface_after_status E id statusNode status Ho Hl).
    cbv zeta. rewrite (fields_enough _ _ Hm).
    destruct (enough_fields (Split status space) 1%nat (fields_enough _ _ Hm)
                ltac:(lia)) as [device Hd].
    rewrite (index_nth_error _ _ _ Hd), (index_nth_error _ _ _ Hm).
    cbn [bind]. now rewrite Hp.
Qed.

(** C8: with the reads gone through, a raw hardware address whose length
    is not twelve gives the format error "invalid hardware address"; one
    of length twelve passes that test, and if [ParseMAC] then rejects its
    canonical form, the error of [ParseMAC] is what [readInterface]
    reports. *)
Theorem readInterface_address_length (E : Env) (id : Z)
    (status device mtuStr : string) (mtu : Z) (address : string) :
  reads E id status device mtuStr mtu address ->
  (String.length address <> 12%nat ->
     readInterface E id = Throw invalidHardwareAddress /\
     isFormatError invalidHardwareAddress = true) /\
  (String.length address = 12%nat ->
     forall e, ParseMAC E (colonPairs address) = Err e ->
               readInterface E id = Throw e).
Proof.
  intros Hreads.
  rewrite (readInterface_reads E id status device mtuStr mtu address Hreads).
  split.
  - intros Hlen. apply Nat.eqb_neq in Hlen. rewrite Hlen. split; reflexivity.
  - intros Hlen e Hmac. now rewrite Hlen, Hmac.
Qed.

(** C9: a status file whose first line splits on single spaces into fewer
    than four fields makes [readInterface] report the format error that
    names that file, which is no error of the operating system, and no
    record comes with an error. *)
Theorem readInterface_few_fields (E : Env) (id : Z) (statusNode : Node)
    (status : string) :
  fs E (statusPath E (Itoa id)) = Ok statusNode ->
  firstLine E (opened (statusPath E (Itoa id)) statusNode) = (status, None) ->
  (List.length (Split status space) < 4)%nat ->
  readInterface E id = Throw (invalidStatus (statusPath E (Itoa id))) /\
  invalidStatus (statusPath E (Itoa id)) =
    errors_New ("Invalid status file of interface: " ++ statusPath E (Itoa id)) /\
  isFormatError (invalidStatus (statusPath E (Itoa id))) = true /\
  (forall r, readInterface E id <> Return r).
Proof.
  intros Ho Hl Hlen.
  assert (H : readInterface E id = Throw (invalidStatus (statusPath E (Itoa id)))).
  { rewrite (readInterface_after_status E id statusNode status Ho Hl). cbv zeta.
    destruct (Z.ltb_spec (lenSlice (Split status space)) 4) as [_|Hge];
      [reflexivity|]. unfold lenSlice in Hge. lia. }
  repeat split; try assumption.
  intros r. rewrite H. discriminate.
Qed.

(** ** interfaceTable *)

Local Open Scope list_scope.

Lemma wrap_range (w x : Z) :
  0 < w -> - 2 ^ (w - 1) <= wrap w x <= 2 ^ (w - 1) - 1.
Proof.
  intros Hw. unfold wrap.
  assert (Hpow : 2 ^ w = 2 * 2 ^ (w - 1)).
  { replace w with (Z.succ (w - 1)) at 1 by lia. apply Z.pow_succ_r. lia. }
  assert (Hh : 0 < 2 ^ (w - 1)) by (apply Z.pow_pos_nonneg; lia).
  pose proof (Z.mod_pos_bound (x + 2 ^ (w - 1)) (2 ^ w) ltac:(lia)). lia.
Qed.

Lemma int_add_range (a : GOARCH) (x y : Z) :
  minInt a <= int_add a x y <= maxInt a.
Proof. unfold minInt, maxInt, int_add. apply wrap_range, intSize_pos. Qed.

Lemma getInterfaceCount_loop_range (a : GOARCH) (names : list string) (fuel : nat) :
  forall count k,
    minInt a <= count <= maxInt a ->
    getInterfaceCount_loop a fuel names count = Return k ->
    minInt a <= k <= maxInt a.
Proof.
  induction fuel as [|fuel IH]; intros count k Hc; simpl; [discriminate|].
  destruct (in_dec string_dec (Itoa count) names) as [Hin|Hout].
  - rewrite range_found by assumption. simpl. apply IH, int_add_range.
  - rewrite range_missing by assumption. simpl. now intros [= <-].
Qed.

(** The count is an [int]. *)
Lemma getInterfaceCount_range_int (E : Env) (count : Z) :
  getInterfaceCount E = Return count ->
  minInt (arch E) <= count <= maxInt (arch E).
Proof.
  unfold getInterfaceCount.
  destruct (os_Open E _) as [ipifc|]; [|discriminate]. cbn [try bind].
  destruct (Readdirnames ipifc) as [names|]; [|discriminate]. cbn [try bind].
  apply getInterfaceCount_loop_range.
  pose proof (minInt_neg (arch E)). pose proof (maxInt_pos (arch E)). lia.
Qed.

Lemma assign_middle {A : Type} (done : list A) (p : A) (pending : list A) (x : A) :
  assign (done ++ p :: pending) (List.length done) x = Return (done ++ x :: pending).
Proof.
  induction done as [|d done IH]; simpl; [reflexivity|]. now rewrite IH.
Qed.

Lemma assignAt_middle {A : Type} (done : list A) (p : A) (pending : list A)
    (x : A) (i : Z) :
  Z.of_nat (List.length done) = i ->
  assignAt (done ++ p :: pending) i x = Return (done ++ x :: pending).
Proof.
  intros Hi. unfold assignAt. destruct (Z.ltb_spec i 0); [lia|].
  replace (Z.to_nat i) with (List.length done) by lia. apply assign_middle.
Qed.

Section Enumeration.

Variable E : Env.
Variable numIfc : Z.
Hypothesis numIfc_int : numIfc <= maxInt (arch E).

(** All positions from [idx] on can be read: the loop fills the pending
    part of the slice with their records, in order. *)
Lemma interfaceTable_loop_fills (n : nat) :
  forall (done pending : list Interface) (idx : Z),
    Z.of_nat (List.length done) = idx ->
    List.length pending = n ->
    idx + Z.of_nat n = numIfc ->
    (forall i, idx <= i < numIfc -> exists r, readInterface E i = Return r) ->
    exists l,
      interfaceTable_loop E n numIfc idx (done ++ pending) = Return (done ++ l) /\
      List.length l = n /\
      forall j r, nth_error l j = Some r ->
                  readInterface E (idx + Z.of_nat j) = Return r.
Proof.
  induction n as [|n IH]; intros done pending idx Hdone Hpend Hidx Hread.
  - destruct pending; [|discriminate]. exists []. simpl.
    destruct (Z.ltb_spec idx numIfc); [lia|]. repeat split.
    intros [|j] r; discriminate.
  - destruct pending as [|p pending]; [discriminate|].
    injection Hpend as Hpend. cbn [interfaceTable_loop].
    destruct (Z.ltb_spec idx numIfc); [|lia].
    destruct (Hread idx ltac:(lia)) as [r Hr]. rewrite Hr. cbn [bind].
    rewrite assignAt_middle by assumption. cbn [bind].
    pose proof (minInt_neg (arch E)).
    rewrite int_add_small by lia.
    destruct (IH (done ++ [r]) pending (idx + 1)) as [l [Hl [Hlen Hnth]]].
    + rewrite length_app. simpl. lia.
    + assumption.
    + lia.
    + intros i Hi. apply Hread. lia.
    + exists (r :: l). rewrite <- !app_assoc in Hl. simpl in Hl.
      split; [exact Hl|]. split; [simpl; lia|].
      intros [|j] r' Hj; simpl in Hj.
      * injection Hj as <-. now rewrite Z.add_0_r.
      * replace (idx + Z.of_nat (S j)) with (idx + 1 + Z.of_nat j) by lia.
        now apply Hnth.
Qed.

(** The first position from [idx] on that cannot be read is [i]: the loop
    stops there with its error. *)
Lemma interfaceTable_loop_aborts (n : nat) (i : Z) (e : error) :
  readInterface E i = Throw e ->
  i < numIfc ->
  forall (done pending : list Interface) (idx : Z),
    Z.of_nat (List.length done) = idx ->
    List.length pending = n ->
    idx + Z.of_nat n = numIfc ->
    idx <= i ->
    (forall j, idx <= j < i -> exists r, readInterface E j = Return r) ->
    interfaceTable_loop E n numIfc idx (done ++ pending) = Throw e.
Proof.
  intros Hfail Hi.
  induction n as [|n IH]; intros done pending idx Hdone Hpend Hidx Hle Hread.
  - lia.
  - destruct pending as [|p pending]; [discriminate|].
    injection Hpend as Hpend. cbn [interfaceTable_loop].
    destruct (Z.ltb_spec idx numIfc); [|lia].
    destruct (Z.eq_dec idx i) as [->|Hne].
    + rewrite Hfail. reflexivity.
    + destruct (Hread idx ltac:(lia)) as [r Hr]. rewrite Hr. cbn [bind].
      rewrite assignAt_middle by assumption. cbn [bind].
      pose proof (minInt_neg (arch E)).
      rewrite int_add_small by lia.
      replace (done ++ r :: pending) with ((done ++ [r]) ++ pending)
        by (rewrite <- app_assoc; reflexivity).
      apply IH; try lia.
      * rewrite length_app. simpl. lia.
      * intros j Hj. apply Hread. lia.
Qed.

End Enumeration.

(** Either all positions below [n] can be read or one of them fails. *)
Lemma reads_all_or_fails (E : Env) (n : nat) :
  (forall j, 0 <= j < Z.of_nat n -> exists r, readInterface E j = Return r) \/
  (exists m e, (m < n)%nat /\ readInterface E (Z.of_nat m) = Throw e).
Proof.
  induction n as [|n IHn].
  - left. intros j Hj. lia.
  - destruct IHn as [Hall|[m [e' [Hm He']]]].
    + destruct (readInterface_returns_or_throws E (Z.of_nat n)) as [[r Hr]|[e' He']].
      * left. intros j Hj.
        destruct (Z.eq_dec j (Z.of_nat n)) as [->|Hne]; [eauto|].
        apply Hall. lia.
      * right. exists n, e'. split; [lia|assumption].
    + right. exists m, e'. split; [lia|assumption].
Qed.

(** Below a position that cannot be read lies a first such position. *)
Lemma first_failure (E : Env) (n : nat) :
  forall e, readInterface E (Z.of_nat n) = Throw e ->
  exists i e0, 0 <= i <= Z.of_nat n /\ readInterface E i = Throw e0 /\
               forall j, 0 <= j < i -> exists r, readInterface E j = Return r.
Proof.
  induction n as [n IH] using (well_founded_induction lt_wf). intros e He.
  destruct (reads_all_or_fails E n) as [Hall|[m [e' [Hm He']]]].
  - exists (Z.of_nat n), e. repeat split; try lia; assumption.
  - destruct (IH m Hm e' He') as [i [e0 [Hi [Hf Hbelow]]]].
    exists i, e0. repeat split; try lia; assumption.
Qed.

(** The full listing: all records in order, or the first error. *)
Lemma interfaceTable_zero (E : Env) (count : Z) :
  getInterfaceCount E = Return count ->
  0 <= count ->
  ((forall i, 0 <= i < count -> exists r, readInterface E i = Return r) ->
   exists l,
     interfaceTable E 0 = Return l /\
     Z.of_nat (List.length l) = count /\
     forall j r, nth_error l j = Some r ->
       readInterface E (Z.of_nat j) = Return r /\
       Index r = Z.of_nat j + 1 /\
       Name r = Itoa (Z.of_nat j)) /\
  (forall i e, 0 <= i < count -> readInterface E i = Throw e ->
     (exists e', interfaceTable E 0 = Throw e') /\
     (forall l, interfaceTable E 0 <> Return l) /\
     ((forall j, 0 <= j < i -> exists r, readInterface E j = Return r) ->
      interfaceTable E 0 = Throw e)).
Proof.
  intros Hcount Hpos.
  pose proof (getInterfaceCount_range_int E count Hcount) as [_ Hmax].
  assert (Hunfold : interfaceTable E 0 =
            interfaceTable_loop E (Z.to_nat count) count 0
              ([] ++ repeat zeroInterface (Z.to_nat count))).
  { unfold interfaceTable. simpl Z.eqb. cbv iota. rewrite Hcount. cbn [bind].
    unfold make. destruct (Z.ltb_spec count 0); [lia|]. reflexivity. }
  assert (Habort : forall i e, 0 <= i < count -> readInterface E i = Throw e ->
            (forall j, 0 <= j < i -> exists r, readInterface E j = Return r) ->
            interfaceTable E 0 = Throw e).
  { intros i e Hi He Hbelow. rewrite Hunfold.
    apply (interfaceTable_loop_aborts E count Hmax (Z.to_nat count) i e);
      try assumption; try lia.
    - reflexivity.
    - apply repeat_length. }
  split.
  - intros Hread.
    destruct (interfaceTable_loop_fills E count Hmax (Z.to_nat count) []
                (repeat zeroInterface (Z.to_nat count)) 0)
      as [l [Hl [Hlen Hnth]]].
    + reflexivity.
    + apply repeat_length.
    + lia.
    + exact Hread.
    + exists l. rewrite Hunfold. split; [exact Hl|]. split; [lia|].
      intros j r Hj. pose proof (Hnth j r Hj) as Hr. simpl in Hr.
      split; [exact Hr|].
      assert (Hjlt : (j < List.length l)%nat) by (apply nth_error_Some; congruence).
      destruct (record_of_position E (Z.of_nat j) r ltac:(lia) Hr)
        as [_ [Hname Hidx]].
      split; [apply Hidx; lia|exact Hname].
  - intros i e Hi He.
    assert (Hthrow : exists e', interfaceTable E 0 = Throw e').
    { replace i with (Z.of_nat (Z.to_nat i)) in He by lia.
      destruct (first_failure E (Z.to_nat i) e He) as [i0 [e0 [Hi0 [Hf Hbelow]]]].
      exists e0. apply (Habort i0 e0); try assumption. lia. }
    split; [exact Hthrow|]. split.
    + destruct Hthrow as [e' He']. intros l. rewrite He'. discriminate.
    + intros Hbelow. now apply (Habort i e).
Qed.

(** C3: with [count] entries counted, [interfaceTable 0] returns the
    records of the positions 0, ..., count-1 in ascending order when each
    of them can be read; and when the read of any one position fails, the
    call reports an error -- that of the first position that fails -- and
    returns no sequence. *)
Theorem interfaceTable_all (E : Env) (count : Z) :
  getInterfaceCount E = Return count ->
  0 <= count ->
  ((forall i, 0 <= i < count -> exists r, readInterface E i = Return r) ->
   exists l,
     interfaceTable E 0 = Return l /\
     Z.of_nat (List.length l) = count /\
     forall j r, nth_error l j = Some r ->
       readInterface E (Z.of_nat j) = Return r /\
       Index r = Z.of_nat j + 1 /\
       Name r = Itoa (Z.of_nat j)) /\
  (forall i e, 0 <= i < count -> readInterface E i = Throw e ->
     (exists e', interfaceTable E 0 = Throw e') /\
     (forall l, interfaceTable E 0 <> Return l) /\
     ((forall j, 0 <= j < i -> exists r, readInterface E j = Return r) ->
      interfaceTable E 0 = Throw e)).
Proof. exact (interfaceTable_zero E count). Qed.

(** What a returned full listing tells about the positions. *)
Lemma interfaceTable_all_inv (E : Env) (full : list Interface) :
  interfaceTable E 0 = Return full ->
  exists count,
    getInterfaceCount E = Return count /\
    0 <= count /\
    Z.of_nat (List.length full) = count /\
    forall j r, nth_error full j = Some r ->
                readInterface E (Z.of_nat j) = Return r.
Proof.
  intros Hret.
  destruct (getInterfaceCount E) as [count| | |] eqn:Hcount;
    try (unfold interfaceTable in Hret; simpl Z.eqb in Hret; cbv iota in Hret;
         rewrite Hcount in Hret; discriminate).
  assert (Hpos : 0 <= count).
  { destruct (Z.ltb_spec count 0) as [Hneg|]; [|assumption].
    unfold interfaceTable in Hret. simpl Z.eqb in Hret. cbv iota in Hret.
    rewrite Hcount in Hret. cbn [bind] in Hret. unfold make in Hret.
    destruct (Z.ltb_spec count 0); [discriminate|lia]. }
  exists count. split; [reflexivity|]. split; [assumption|].
  destruct (interfaceTable_zero E count Hcount Hpos) as [Hok Hfail].
  destruct (reads_all_or_fails E (Z.to_nat count)) as [Hall|[m [e [Hm He]]]].
  - destruct Hok as [l [Hl [Hlen Hnth]]].
    { intros i Hi. apply Hall. lia. }
    rewrite Hl in Hret. injection Hret as <-. split; [assumption|].
    intros j r Hj. now apply Hnth.
  - destruct (Hfail (Z.of_nat m) e ltac:(lia) He) as [_ [Hno _]].
    now destruct (Hno full).
Qed.

(** C7: a selector [k] other than zero goes to [readInterface] as it is,
    as a zero-based position: the one record returned has the index
    [k + 1] and the name of [k].  So the index of a record of a full
    listing, used as a selector, does not select that record but the one
    at the next position. *)
Theorem interfaceTable_single (E : Env) (k : Z) :
  k <> 0 ->
  interfaceTable E k = (ifc <- readInterface E k ;; Return [ifc]) /\
  (forall l, interfaceTable E k = Return l ->
     exists r, l = [r] /\ readInterface E k = Return r /\
               Index r = int_add (arch E) k 1 /\
               Name r = Itoa k /\
               (minInt (arch E) <= k < maxInt (arch E) -> Index r = k + 1)) /\
  (forall full j r0,
     interfaceTable E 0 = Return full ->
     nth_error full j = Some r0 ->
     Index r0 = Z.of_nat j + 1 /\
     forall l, interfaceTable E (Index r0) = Return l ->
       exists r', l = [r'] /\
                  readInterface E (Z.of_nat j + 1) = Return r' /\
                  Name r' <> Name r0 /\
                  Index r' <> Index r0).
Proof.
  intros Hk.
  assert (Hunfold : forall k', k' <> 0 ->
            interfaceTable E k' = (ifc <- readInterface E k' ;; Return [ifc])).
  { intros k' Hk'. unfold interfaceTable.
    destruct (Z.eqb_spec k' 0); [contradiction|reflexivity]. }
  assert (Hone : forall k' l, k' <> 0 -> interfaceTable E k' = Return l ->
            exists r, l = [r] /\ readInterface E k' = Return r /\
                      Index r = int_add (arch E) k' 1 /\ Name r = Itoa k').
  { intros k' l Hk' Hl. rewrite (Hunfold k' Hk') in Hl.
    destruct (readInterface E k') as [r| | |] eqn:Hr; try discriminate.
    cbn [bind] in Hl. injection Hl as <-.
    destruct (readInterface_inv E k' r Hr)
      as [status [device [mtuStr [mtu [address [hw [_ [_ [_ Hrec]]]]]]]]].
    exists r. subst r. repeat split; reflexivity. }
  split; [exact (Hunfold k Hk)|]. split.
  - intros l Hl. destruct (Hone k l Hk Hl) as [r [-> [Hr [Hi Hn]]]].
    exists r. repeat split; try assumption.
    intros Hrange. rewrite Hi. apply int_add_small. lia.
  - intros full j r0 Hfull Hj.
    destruct (interfaceTable_all_inv E full Hfull) as [count [Hc [Hpos [Hlen Hnth]]]].
    pose proof (Hnth j r0 Hj) as Hr0.
    pose proof (getInterfaceCount_range_int E count Hc) as [_ Hmax].
    assert (Hjlt : (j < List.length full)%nat) by (apply nth_error_Some; congruence).
    destruct (record_of_position E (Z.of_nat j) r0 ltac:(lia) Hr0)
      as [_ [Hname Hidx]].
    specialize (Hidx ltac:(lia)).
    split; [exact Hidx|].
    intros l Hl. rewrite Hidx in Hl.
    destruct (Hone (Z.of_nat j + 1) l ltac:(lia) Hl) as [r' [-> [Hr' [Hi' Hn']]]].
    exists r'. repeat split; try assumption.
    + rewrite Hn', Hname. intros Heq. apply Itoa_inj in Heq. lia.
    + rewrite Hi', Hidx. apply int_add_one_neq.
Qed.

(** ** interfaceAddrTable *)

(** One turn of the loop, once the address line is read. *)
Lemma interfaceAddrTable_loop_step (E : Env) (iface : Interface)
    (rest : list Interface) (idx : nat) (addresses : list Addr) (line : string) :
  addressLine E iface line ->
  interfaceAddrTable_loop E (iface :: rest) idx addresses =
  match line with
  | EmptyString => Panic "slice bounds out of range"
  | String c _ =>
      if Ascii.eqb c tab then
        match ParseIP E (ipToken line) with
        | None => Throw unableToParseIP
        | Some _ =>
            addresses <- assign addresses idx (addressOf E line) ;;
            interfaceAddrTable_loop E rest (S idx) addresses
        end
      else Throw cannotParseIP
  end.
Proof.
  intros [statusNode [Ho Hl]].
  cbn [interfaceAddrTable_loop]. unfold os_Open.
  fold (statusPath E (Name iface)). rewrite Ho. cbn [try bind].
  unfold secondLine, opened in Hl. injection Hl as Ht He.
  rewrite He, Ht. cbn [check bind].
  destruct line as [|c line]; [reflexivity|].
  unfold slice. cbn [Nat.leb String.length andb Nat.sub bind substring].
  replace (substring 0 0 line) with EmptyString by (now destruct line).
  cbn [String.eqb].
  destruct (Ascii.eqb_spec c tab) as [->|Hc]; cbn [negb]; [|reflexivity].
  cbn [Split]. rewrite Ascii.eqb_refl.
  destruct (Split_nonempty line tab) as [field [fields Hf]].
  destruct (Split_nonempty field space) as [ipaddr [tokens Hs]].
  assert (Htok : ipToken (String tab line) = ipaddr).
  { unfold ipToken. cbn [Split]. rewrite Ascii.eqb_refl, Hf. cbn [nth].
    now rewrite Hs. }
  unfold addressOf. rewrite Htok, Hf. cbn [index nth_error bind].
  rewrite Hs. cbn [index nth_error bind IPAddr_IP].
  destruct (ParseIP E ipaddr); reflexivity.
Qed.

Lemma interfaceAddrTable_resolved (E : Env) (ifi : option Interface)
    (ifaces : list Interface) :
  resolved E ifi ifaces ->
  interfaceAddrTable E ifi =
  interfaceAddrTable_loop E ifaces 0 ([] ++ repeat None (List.length ifaces)).
Proof.
  intros Hres. unfold interfaceAddrTable.
  assert (Hifaces : match ifi with
                    | Some i => Return [i]
                    | None => interfaceTable E 0
                    end = Return ifaces).
  { destruct ifi as [i|]; simpl in Hres; [now subst|assumption]. }
  rewrite Hifaces. cbn [bind]. unfold make, lenSlice.
  destruct (Z.ltb_spec (Z.of_nat (List.length ifaces)) 0); [lia|].
  rewrite Nat2Z.id. reflexivity.
Qed.

(** The first interface has an empty address line: the slice expression
    on it stops the program. *)
Lemma interfaceAddrTable_panics (E : Env) (ifi : option Interface)
    (iface : Interface) (rest : list Interface) :
  resolved E ifi (iface :: rest) ->
  addressLine E iface EmptyString ->
  interfaceAddrTable E ifi = Panic "slice bounds out of range".
Proof.
  intros Hres Hline. rewrite (interfaceAddrTable_resolved E ifi _ Hres).
  now rewrite (interfaceAddrTable_loop_step E iface rest 0 _ EmptyString Hline).
Qed.

(** The first interface has an address line that begins with another
    character than a tab: the format error. *)
Lemma interfaceAddrTable_no_tab (E : Env) (ifi : option Interface)
    (iface : Interface) (rest : list Interface) (c : ascii) (line : string) :
  resolved E ifi (iface :: rest) ->
  addressLine E iface (String c line) ->
  c <> tab ->
  interfaceAddrTable E ifi = Throw cannotParseIP.
Proof.
  intros Hres Hline Hc. rewrite (interfaceAddrTable_resolved E ifi _ Hres).
  rewrite (interfaceAddrTable_loop_step E iface rest 0 _ _ Hline).
  destruct (Ascii.eqb_spec c tab); [contradiction|reflexivity].
Qed.

(** C2: an interface whose address line is empty -- the second line of its
    status file is there and holds nothing -- does not make
    [interfaceAddrTable] report the format error "cannot parse IP
    address": the test [ipline[0:1]] on the empty line is a run-time
    panic. *)
Theorem interfaceAddrTable_empty_line (E : Env) (iface : Interface) :
  addressLine E iface EmptyString ->
  interfaceAddrTable E (Some iface) = Panic "slice bounds out of range" /\
  interfaceAddrTable E (Some iface) <> Throw cannotParseIP.
Proof.
  intros Hline.
  rewrite (interfaceAddrTable_panics E (Some iface) iface [] eq_refl Hline).
  split; [reflexivity|discriminate].
Qed.

(** Every interface has an address line that begins with a tab and whose
    token is an IP address: the loop fills the pending part of the slice
    with their address records, in order. *)
Lemma interfaceAddrTable_loop_fills (E : Env) (ifaces : list Interface) :
  forall (done pending : list Addr),
    List.length pending = List.length ifaces ->
    (forall iface, In iface ifaces ->
       exists line, addressLine E iface line /\ beginsWithTab line = true /\
                    ParseIP E (ipToken line) <> None) ->
    exists l,
      interfaceAddrTable_loop E ifaces (List.length done) (done ++ pending)
        = Return (done ++ l) /\
      Forall2 (fun iface addr =>
                 exists line, addressLine E iface line /\ addr = addressOf E line)
              ifaces l.
Proof.
  induction ifaces as [|iface rest IH]; intros done pending Hpend Hgood.
  - destruct pending; [|discriminate]. exists []. split; [reflexivity|constructor].
  - destruct pending as [|p pending]; [discriminate|]. injection Hpend as Hpend.
    destruct (Hgood iface (or_introl eq_refl)) as [line [Hline [Htab Hip]]].
    rewrite (interfaceAddrTable_loop_step E iface rest _ _ line Hline).
    destruct line as [|c line]; [discriminate|]. cbn [beginsWithTab] in Htab.
    rewrite Htab.
    destruct (ParseIP E (ipToken (String c line))) as [bytes|] eqn:Hparse;
      [|contradiction].
    rewrite assign_middle. cbn [bind].
    destruct (IH (done ++ [addressOf E (String c line)]) pending Hpend)
      as [l [Hl Hall]].
    { intros i Hi. apply Hgood. now right. }
    rewrite length_app in Hl. cbn [List.length] in Hl.
    rewrite Nat.add_1_r in Hl. rewrite <- !app_assoc in Hl. cbn [app] in Hl.
    exists (addressOf E (String c line) :: l). split; [exact Hl|].
    constructor; [|exact Hall]. exists (String c line). split; [assumption|reflexivity].
Qed.

(** C10, as the program has it: when the address line of every resolved
    interface begins with a tab and its token -- the first space-delimited
    token of the second tab-delimited field -- is an IP address,
    [interfaceAddrTable] returns one address record per interface, in the
    order of the interfaces, each holding the parsed token and an empty
    zone.  The line made of a tab, "10.0.0.5 255.255.255.0" and a tab has
    the token "10.0.0.5". *)
Theorem interfaceAddrTable_records (E : Env) (ifi : option Interface)
    (ifaces : list Interface) :
  resolved E ifi ifaces ->
  (forall iface, In iface ifaces ->
     exists line, addressLine E iface line /\ beginsWithTab line = true /\
                  ParseIP E (ipToken line) <> None) ->
  (exists addrs,
     interfaceAddrTable E ifi = Return addrs /\
     Forall2 (fun iface addr =>
                exists line,
                  addressLine E iface line /\
                  addr = Some {| IPAddr_IP := ParseIP E (ipToken line);
                                 Zone := EmptyString |})
             ifaces addrs) /\
  ipToken (ht ++ "10.0.0.5 255.255.255.0" ++ ht)%string = "10.0.0.5"%string.
Proof.
  intros Hres Hgood. split; [|reflexivity].
  rewrite (interfaceAddrTable_resolved E ifi ifaces Hres).
  destruct (interfaceAddrTable_loop_fills E ifaces []
              (repeat None (List.length ifaces)) (repeat_length _ _) Hgood)
    as [l [Hl Hall]].
  exists l. split; [exact Hl|exact Hall].
Qed.

(** ** The modelled ParseMAC on raw addresses *)

Lemma hexPair_inv (g : string) (b : Byte.byte) :
  hexPair g = Some b ->
  exists hi lo, g = String hi (String lo EmptyString) /\
                hexVal hi <> None /\ hexVal lo <> None.
Proof.
  destruct g as [|hi [|lo [|? ?]]]; simpl; try discriminate.
  destruct (hexVal hi) eqn:Hhi; [|discriminate].
  destruct (hexVal lo) eqn:Hlo; [|discriminate].
  intros _. exists hi, lo. repeat split; congruence.
Qed.

Lemma hexPairs_inv (groups : list string) :
  forall bytes, hexPairs groups = Some bytes ->
    List.length bytes = List.length groups /\
    Forall (fun g => exists hi lo, g = String hi (String lo EmptyString) /\
                                   hexVal hi <> None /\ hexVal lo <> None) groups.
Proof.
  induction groups as [|g groups IH]; intros bytes; cbn [hexPairs].
  - intros [= <-]. split; [reflexivity|constructor].
  - destruct (hexPair g) as [b|] eqn:Hg; [|discriminate].
    destruct (hexPairs groups) as [bs|]; [|discriminate].
    intros [= <-]. destruct (IH bs eq_refl) as [Hlen Hall].
    split; [simpl; now rewrite Hlen|].
    constructor; [now apply (hexPair_inv g b)|assumption].
Qed.

(** The hardware addresses that the modelled [parseMAC] accepts in
    canonical form are made of hexadecimal digits. *)
Lemma parseMAC_hex (address : string) (hw : HardwareAddr) :
  String.length address = 12%nat ->
  parseMAC (colonPairs address) = Ok hw ->
  forall i c, String.get i address = Some c -> hexVal c <> None.
Proof.
  intros Hlen Hmac.
  unfold parseMAC in Hmac.
  pose proof (Split_concat (colonPairs address) ":"%char) as Hjoin.
  destruct (hexPairs (Split (colonPairs address) ":"%char)) as [bytes|] eqn:Hp;
    [|discriminate].
  destruct (Nat.eqb_spec (List.length bytes) 6) as [H6|]; [|discriminate].
  destruct (hexPairs_inv _ _ Hp) as [Hl Hall]. rewrite H6 in Hl.
  destruct (Split (colonPairs address) ":"%char)
    as [|g0 [|g1 [|g2 [|g3 [|g4 [|g5 [|? ?]]]]]]]; try discriminate.
  repeat match goal with
         | H : Forall _ (_ :: _) |- _ => inversion H; clear H; subst
         end.
  repeat match goal with
         | H : exists hi lo, _ /\ _ /\ _ |- _ =>
             let hi := fresh "hi" in let lo := fresh "lo" in
             let Hg := fresh "Hg" in let Hhi := fresh "Hhi" in
             let Hlo := fresh "Hlo" in
             destruct H as [hi [lo [Hg [Hhi Hlo]]]]; subst
         end.
  do 12 (destruct address as [|? address]; [discriminate Hlen|]).
  destruct address; [|discriminate Hlen].
  cbv in Hjoin. injection Hjoin as -> -> -> -> -> -> -> -> -> -> -> ->.
  intros i c Hget.
  do 12 (destruct i as [|i]; [cbn in Hget; injection Hget as <-; assumption|]).
  discriminate Hget.
Qed.

(** With the modelled [parseMAC], a raw address of twelve characters of
    which one is no hexadecimal digit fails in [ParseMAC]. *)
Lemma readInterface_nonhex_address (E : Env) (id : Z)
    (status device mtuStr : string) (mtu : Z) (address : string)
    (i : nat) (c : ascii) :
  ParseMAC E = parseMAC ->
  reads E id status device mtuStr mtu address ->
  String.length address = 12%nat ->
  String.get i address = Some c -> hexVal c = None ->
  readInterface E id =
    Throw (errors_New ("invalid MAC address: " ++ colonPairs address)).
Proof.
  intros HE Hreads Hlen Hget Hc.
  rewrite (readInterface_reads E id status device mtuStr mtu address Hreads).
  rewrite Hlen, HE. cbn [Nat.eqb].
  destruct (parseMAC (colonPairs address)) as [hw|e] eqn:Hmac.
  - now destruct (parseMAC_hex address hw Hlen Hmac i c Hget).
  - unfold parseMAC in Hmac.
    destruct (hexPairs _); [destruct (_ =? 6)%nat; [discriminate|]|];
      now injection Hmac as <-.
Qed.

(** * Examples *)

(** Entries 0, 1, 2 and 5 among others, in no order: the count is 3. *)
Lemma getInterfaceCount_is_run_length_witness :
  getInterfaceCount (exampleEnv threeInterfaces) = Return 3.
Proof.
  refine (proj1 (getInterfaceCount_is_run_length (exampleEnv threeInterfaces)
                   (directory ["clone"; "stats"; "1"; "0"; "5"; "2"])
                   ["clone"; "stats"; "1"; "0"; "5"; "2"]
                   eq_refl eq_refl _) 3 _ _ _).
  - vm_compute. discriminate.
  - lia.
  - intros i Hi.
    assert (Hcases : i = 0 \/ i = 1 \/ i = 2) by lia.
    destruct Hcases as [-> | [-> | ->]]; vm_compute; tauto.
  - vm_compute. intuition discriminate.
Defined.

(** Position 2 gives index 3 and the name "2". *)
Lemma readInterface_Index_Name_witness :
  Index (nth 2 threeRecords zeroInterface) = 3 /\
  Name (nth 2 threeRecords zeroInterface) = "2"%string.
Proof.
  destruct (readInterface_Index_Name (exampleEnv threeInterfaces) 2
              (nth 2 threeRecords zeroInterface)) as [Hi [Hn _]].
  - lia.
  - vm_compute. reflexivity.
  - split; [exact Hi|exact Hn].
Defined.

Lemma threeInterfaces_read (i : Z) :
  0 <= i < 3 ->
  exists r, readInterface (exampleEnv threeInterfaces) i = Return r.
Proof.
  intros Hi. assert (Hcases : i = 0 \/ i = 1 \/ i = 2) by lia.
  destruct Hcases as [-> | [-> | ->]]; eexists; vm_compute; reflexivity.
Qed.

(** Three valid entries give the three records with the indices 1, 2, 3;
    without the address file of the device of entry 1 the call reports
    what opening that file reports. *)
Lemma interfaceTable_all_witness :
  (exists l, interfaceTable (exampleEnv threeInterfaces) 0 = Return l /\
             map Index l = [1; 2; 3]) /\
  interfaceTable (exampleEnv missingAddrFile) 0 =
    Throw (PathError "open" "/net/ether1/addr" "file does not exist").
Proof.
  split.
  - destruct (proj1 (interfaceTable_all (exampleEnv threeInterfaces) 3
                       eq_refl ltac:(lia)) threeInterfaces_read)
      as [l [Hl _]].
    exists l. split; [exact Hl|].
    vm_compute in Hl. injection Hl as <-. reflexivity.
  - refine (proj2 (proj2 (proj2 (interfaceTable_all (exampleEnv missingAddrFile) 3
                                   eq_refl ltac:(lia))
                            1 _ ltac:(lia) eq_refl)) _).
    intros j Hj. assert (j = 0) as -> by lia.
    eexists. vm_compute. reflexivity.
Defined.

(** "0011223344aa" reaches [ParseMAC] as "00:11:22:33:44:aa". *)
Lemma readInterface_reformats_address_witness :
  readInterface (exampleEnv threeInterfaces) 0 =
    match parseMAC "00:11:22:33:44:aa" with
    | Ok hw => Return (record (exampleEnv threeInterfaces) 0 1500 hw)
    | Err e => Throw e
    end.
Proof.
  refine (proj1 (readInterface_reformats_address (exampleEnv threeInterfaces) 0
                   "up /net/ether0 X 1500" "/net/ether0" "1500" 1500
                   "0011223344aa" _ eq_refl)).
  exists (textFile (statusText "up /net/ether0 X 1500"
                      (ht ++ "10.0.0.5 255.255.255.0" ++ ht)%string)),
         (textFile "0011223344aa").
  repeat split; vm_compute; reflexivity.
Defined.

(** The MTU field "9000" gives the MTU 9000; the field "big" gives the
    format error that names the status file. *)
Lemma readInterface_MTU_witness :
  (exists mtuStr mtu,
     ParseInt mtuStr 10 64 = Ok mtu /\
     MTU (nth 2 threeRecords zeroInterface) = int_of_int64 amd64 mtu) /\
  readInterface (exampleEnv wordMTU) 0 =
    Throw (errors_New "Invalid status file of interface: /net/ipifc/0/status").
Proof.
  split.
  - destruct (proj1 (readInterface_MTU (exampleEnv threeInterfaces) 2)
                (nth 2 threeRecords zeroInterface) eq_refl)
      as [statusNode [status [mtuStr [mtu [_ [_ [_ [Hp [_ [Hm _]]]]]]]]]].
    exists mtuStr, mtu. split; [exact Hp|exact Hm].
  - refine (proj1 (proj2 (readInterface_MTU (exampleEnv wordMTU) 0)
                     (textFile ("up /net/ether0 X big" ++ nl)%string)
                     "up /net/ether0 X big" "big"
                     (NumError "ParseInt" "big" ErrSyntax)
                     eq_refl eq_refl eq_refl eq_refl)).
Defined.

(** Selector 1 returns the record with index 2 and name "1", not the
    record that carries the index 1. *)
Lemma interfaceTable_single_witness :
  interfaceTable (exampleEnv threeInterfaces) 1 =
    Return [nth 1 threeRecords zeroInterface] /\
  Index (nth 1 threeRecords zeroInterface) = 2 /\
  Index (nth 0 threeRecords zeroInterface) = 1.
Proof.
  destruct (interfaceTable_single (exampleEnv threeInterfaces) 1 ltac:(lia))
    as [Hunfold _].
  split; [|split; reflexivity].
  rewrite Hunfold. vm_compute. reflexivity.
Defined.

(** Address files of 11 and of 13 characters give the format error; one
    of 12 characters that are no hexadecimal digits gives the error of
    [ParseMAC]. *)
Lemma readInterface_address_length_witness :
  readInterface (exampleEnv (withAddress "0011223344a")) 0 =
    Throw invalidHardwareAddress /\
  readInterface (exampleEnv (withAddress "0011223344aab")) 0 =
    Throw invalidHardwareAddress /\
  readInterface (exampleEnv (withAddress "0011223344zz")) 0 =
    Throw (errors_New "invalid MAC address: 00:11:22:33:44:zz").
Proof.
  assert (Hreads : forall address,
            In address ["0011223344a"; "0011223344aab"; "0011223344zz"]%string ->
            reads (exampleEnv (withAddress address)) 0
              "up /net/ether0 X 1500" "/net/ether0" "1500" 1500 address).
  { intros address Hin.
    exists (textFile (statusText "up /net/ether0 X 1500"
                        (ht ++ "10.0.0.5 255.255.255.0" ++ ht)%string)),
           (textFile (address ++ nl)%string).
    destruct Hin as [<- | [<- | [<- | []]]];
      repeat split; vm_compute; reflexivity. }
  split; [|split].
  - exact (proj1 (proj1 (readInterface_address_length _ 0 _ _ _ _ _
                           (Hreads "0011223344a"%string ltac:(simpl; tauto)))
                    ltac:(vm_compute; discriminate))).
  - exact (proj1 (proj1 (readInterface_address_length _ 0 _ _ _ _ _
                           (Hreads "0011223344aab"%string ltac:(simpl; tauto)))
                    ltac:(vm_compute; discriminate))).
  - exact (proj2 (readInterface_address_length _ 0 _ _ _ _ _
                    (Hreads "0011223344zz"%string ltac:(simpl; tauto)))
             eq_refl _ eq_refl).
Defined.

(** A status line of three fields gives the format error that names the
    status file. *)
Lemma readInterface_few_fields_witness :
  readInterface (exampleEnv threeFields) 0 =
    Throw (errors_New "Invalid status file of interface: /net/ipifc/0/status").
Proof.
  refine (proj1 (readInterface_few_fields (exampleEnv threeFields) 0
                   (textFile ("up /net/ether0 1500" ++ nl)%string)
                   "up /net/ether0 1500" eq_refl eq_refl _)).
  vm_compute. lia.
Defined.

(** The status file of interface "0" holds its status line and an empty
    second line: the address lookup for that interface panics. *)
Lemma interfaceAddrTable_empty_line_witness :
  interfaceAddrTable (exampleEnv (withAddressLine EmptyString))
    (Some (nth 0 threeRecords zeroInterface))
  = Panic "slice bounds out of range".
Proof.
  refine (proj1 (interfaceAddrTable_empty_line
                   (exampleEnv (withAddressLine EmptyString))
                   (nth 0 threeRecords zeroInterface) _)).
  exists (textFile (statusText "up /net/ether0 X 1500" EmptyString)).
  split; vm_compute; reflexivity.
Defined.

(** The same happens when all interfaces are asked for, and with either
    behaviour of the scanner at the end of its input. *)
Example empty_address_line_panics (stale : bool) :
  interfaceAddrTable (envOf amd64 stale (withAddressLine EmptyString)) None
  = Panic "slice bounds out of range".
Proof. destruct stale; vm_compute; reflexivity. Qed.

(** A status file that ends after its first line: the current scanner
    leaves the empty text, and the lookup panics; the older scanner leaves
    the first line, which does not begin with a tab. *)
Example absent_address_line :
  let files := [ ("/net/ipifc/0/status"%string,
                  textFile ("up /net/ether0 X 1500" ++ nl)%string) ] in
  interfaceAddrTable (envOf amd64 false files)
    (Some (nth 0 threeRecords zeroInterface))
  = Panic "slice bounds out of range" /\
  interfaceAddrTable (envOf amd64 true files)
    (Some (nth 0 threeRecords zeroInterface))
  = Throw cannotParseIP.
Proof. split; vm_compute; reflexivity. Qed.

(** An address line that begins with a digit gives the format error. *)
Example letter_address_line :
  interfaceAddrTable (exampleEnv (withAddressLine "10.0.0.5 255.255.255.0"))
    (Some (nth 0 threeRecords zeroInterface))
  = Throw cannotParseIP.
Proof. vm_compute. reflexivity. Qed.

(** The three interfaces give their three addresses, in order; the line
    made of a tab, "10.0.0.5 255.255.255.0" and a tab gives 10.0.0.5. *)
Lemma interfaceAddrTable_records_witness :
  interfaceAddrTable (exampleEnv threeInterfaces) None =
    Return (map (fun ip => Some {| IPAddr_IP := parseIP ip; Zone := EmptyString |})
                ["10.0.0.5"; "10.0.1.5"; "10.0.2.5"]%string) /\
  interfaceAddrTable (exampleEnv (withAddressLine tabbedLine)) None =
    Return [Some {| IPAddr_IP := Some [Byte.x0a; Byte.x00; Byte.x00; Byte.x05];
                    Zone := EmptyString |}].
Proof.
  split.
  - destruct (proj1 (interfaceAddrTable_records (exampleEnv threeInterfaces) None
                       threeRecords eq_refl
                       ltac:(intros iface [<- | [<- | [<- | []]]];
                             eexists; (split; [eexists; split|split]);
                             try (vm_compute; reflexivity);
                             vm_compute; discriminate)))
      as [addrs [Haddrs _]].
    rewrite Haddrs. vm_compute in Haddrs. injection Haddrs as <-.
    vm_compute. reflexivity.
  - destruct (proj1 (interfaceAddrTable_records
                       (exampleEnv (withAddressLine tabbedLine)) None
                       [nth 0 threeRecords zeroInterface] eq_refl
                       ltac:(intros iface [<- | []];
                             exists tabbedLine; (split; [eexists; split|split]);
                             try (vm_compute; reflexivity);
                             vm_compute; discriminate)))
      as [addrs [Haddrs _]].
    rewrite Haddrs. vm_compute in Haddrs. injection Haddrs as <-.
    reflexivity.
Defined.

(** * Where the specification and the program part *)

(** Against C6: the MTU field "-5" of interface "0" is read as it is, and
    the record returned has the MTU -5, which is negative. *)
Lemma MTU_can_be_negative :
  exists r, readInterface (exampleEnv negativeMTU) 0 = Return r /\
            MTU r = -5 /\ ~ 0 <= MTU r.
Proof.
  eexists. split; [vm_compute; reflexivity|]. split; [reflexivity|].
  simpl. lia.
Qed.

(** Against C10: the address line "flags", tab, "10.0.0.5 255.255.255.0",
    tab, given as the example, does not begin with a tab; its token in the
    sense of the specification is "10.0.0.5", yet the program returns no address
    for it and reports "Cannot parse IP address for interface". *)
Lemma spec_line_is_rejected :
  ipToken specLine = "10.0.0.5"%string /\
  beginsWithTab specLine = false /\
  interfaceAddrTable (exampleEnv (withAddressLine specLine)) None
    = Throw cannotParseIP /\
  forall addrs,
    interfaceAddrTable (exampleEnv (withAddressLine specLine)) None
      <> Return addrs.
Proof.
  split; [reflexivity|]. split; [reflexivity|].
  assert (H : interfaceAddrTable (exampleEnv (withAddressLine specLine)) None
              = Throw cannotParseIP) by (vm_compute; reflexivity).
  split; [exact H|]. intros addrs. rewrite H. discriminate.
Qed.

(** * Further properties of interface_plan9.go *)

(** ** getInterfaceCount *)

Lemma getInterfaceCount_lists (E : Env) (names : list string) :
  lists E names ->
  getInterfaceCount E =
  getInterfaceCount_loop (arch E) (S (List.length names)) names 0.
Proof.
  intros [ipifc [Ho [Hl _]]].
  exact (getInterfaceCount_unfold E ipifc names Ho Hl).
Qed.

(** The count of a listing together with what makes it the count. *)
Lemma getInterfaceCount_run (E : Env) (names : list string) :
  lists E names ->
  exists k, getInterfaceCount E = Return k /\
            0 <= k <= Z.of_nat (List.length names) /\
            holdsRun names k /\ ~ In (Itoa k) names.
Proof.
  intros Hlists. pose proof Hlists as [ipifc [_ [_ Hfit]]].
  destruct (run_ends names) as [k [Hk [Hrun Hend]]].
  pose proof (run_bounded names k Hk Hrun) as Hb.
  exists k. repeat split; try assumption; try lia.
  rewrite (getInterfaceCount_lists E names Hlists).
  apply loop_reaches; try assumption; lia.
Qed.

(** X1: [getInterfaceCount] on a directory that lists [names] always
    returns, and its count lies between zero and the number of names;
    it is zero for an empty listing. *)
Theorem getInterfaceCount_bounded (E : Env) (names : list string) :
  lists E names ->
  exists k, getInterfaceCount E = Return k /\
            0 <= k <= Z.of_nat (List.length names) /\
            (names = [] -> k = 0).
Proof.
  intros Hlists.
  destruct (getInterfaceCount_run E names Hlists) as [k [Hret [Hb _]]].
  exists k. repeat split; try assumption; try lia.
  intros ->. simpl in Hb. lia.
Qed.

(** X2: the count depends on which names are listed and on nothing else:
    two directories that list the same names, in whatever order and
    however often, have the same count. *)
Theorem getInterfaceCount_same_names (E1 E2 : Env) (names1 names2 : list string) :
  lists E1 names1 -> lists E2 names2 ->
  (forall name, In name names1 <-> In name names2) ->
  getInterfaceCount E1 = getInterfaceCount E2.
Proof.
  intros H1 H2 Hsame.
  destruct (getInterfaceCount_run E1 names1 H1) as [k [Hret [Hb [Hrun Hend]]]].
  rewrite Hret. symmetry.
  assert (Hrun2 : holdsRun names2 k).
  { intros i Hi. apply Hsame, Hrun, Hi. }
  assert (Hend2 : ~ In (Itoa k) names2).
  { intros Hin. apply Hend, Hsame, Hin. }
  pose proof H2 as [ipifc [_ [_ Hfit]]].
  pose proof (run_bounded names2 k ltac:(lia) Hrun2) as Hb2.
  rewrite (getInterfaceCount_lists E2 names2 H2).
  apply loop_reaches; try assumption; lia.
Qed.

(** The errors of opening and of listing the directory. *)
Lemma getInterfaceCount_throws (E : Env) (e : error) :
  fs E (ipifcPath E) = Err e \/
  (exists ipifc, fs E (ipifcPath E) = Ok ipifc /\ dirNames ipifc = Err e) ->
  getInterfaceCount E = Throw e.
Proof.
  unfold getInterfaceCount, os_Open, Readdirnames. fold (ipifcPath E).
  intros [Ho|[ipifc [Ho Hl]]]; rewrite Ho; cbn [try bind File_node];
    [reflexivity|now rewrite Hl].
Qed.

(** X3: an error of opening the enumeration directory or of reading its
    listing is the error of [getInterfaceCount], of [interfaceTable] with
    the selector zero and of [interfaceAddrTable] without an interface:
    it is handed up unchanged. *)
Theorem directory_error_propagates (E : Env) (e : error) :
  fs E (ipifcPath E) = Err e \/
  (exists ipifc, fs E (ipifcPath E) = Ok ipifc /\ dirNames ipifc = Err e) ->
  getInterfaceCount E = Throw e /\
  interfaceTable E 0 = Throw e /\
  interfaceAddrTable E None = Throw e.
Proof.
  intros H. pose proof (getInterfaceCount_throws E e H) as Hc.
  assert (Ht : interfaceTable E 0 = Throw e).
  { unfold interfaceTable. simpl Z.eqb. cbv iota. now rewrite Hc. }
  repeat split; try assumption.
  unfold interfaceAddrTable. now rewrite Ht.
Qed.

(** Without an entry "0" the count is zero. *)
Lemma getInterfaceCount_no_zero (E : Env) (ipifc : Node) (names : list string) :
  fs E (ipifcPath E) = Ok ipifc -> dirNames ipifc = Ok names ->
  ~ In "0"%string names ->
  getInterfaceCount E = Return 0.
Proof.
  intros Ho Hl Hzero.
  rewrite (getInterfaceCount_unfold E ipifc names Ho Hl).
  apply loop_reaches; try lia.
  - pose proof (maxInt_pos (arch E)). lia.
  - intros i Hi. lia.
  - exact Hzero.
Qed.

(** X4: when the directory has no entry "0", whatever else it lists,
    [interfaceTable] with the selector zero returns the empty sequence
    and [interfaceAddrTable] without an interface returns the empty
    sequence: no error is reported. *)
Theorem no_zero_entry_no_interfaces (E : Env) (ipifc : Node) (names : list string) :
  fs E (ipifcPath E) = Ok ipifc -> dirNames ipifc = Ok names ->
  ~ In "0"%string names ->
  interfaceTable E 0 = Return [] /\
  interfaceAddrTable E None = Return [].
Proof.
  intros Ho Hl Hzero.
  pose proof (getInterfaceCount_no_zero E ipifc names Ho Hl Hzero) as Hc.
  assert (Ht : interfaceTable E 0 = Return []).
  { unfold interfaceTable. simpl Z.eqb. cbv iota. now rewrite Hc. }
  split; [exact Ht|].
  unfold interfaceAddrTable. now rewrite Ht.
Qed.

(** ** readInterface *)

(** X5: [readInterface] never stops with a run-time panic: the two
    indexings of the fields of the status line and the twelve slice
    expressions on the raw address are all within their bounds whenever
    they are reached. *)
Theorem readInterface_never_panics (E : Env) (id : Z) :
  (forall msg, readInterface E id <> Panic msg) /\
  readInterface E id <> Loops.
Proof.
  destruct (readInterface_returns_or_throws E id) as [[r Hr]|[e He]].
  - rewrite Hr. split; [intros msg|]; discriminate.
  - rewrite He. split; [intros msg|]; discriminate.
Qed.

(** X6: every record that [readInterface] returns carries the same flags,
    up, broadcast and loopback (the number 7), whatever the files hold. *)
Theorem readInterface_Flags (E : Env) (id : Z) (r : Interface) :
  readInterface E id = Return r ->
  Flags r = Z.lor (Z.lor FlagUp FlagBroadcast) FlagLoopback /\
  Flags r = 7 /\
  Z.land (Flags r) FlagUp = FlagUp /\
  Z.land (Flags r) FlagBroadcast = FlagBroadcast /\
  Z.land (Flags r) FlagLoopback = FlagLoopback.
Proof.
  intros Hret.
  destruct (readInterface_inv E id r Hret)
    as [status [device [mtuStr [mtu [address [hw [_ [_ [_ ->]]]]]]]]].
  repeat split; reflexivity.
Qed.

(** The address file cannot be opened, or its reading fails. *)
Lemma readInterface_addr_fails (E : Env) (id : Z) (statusNode : Node)
    (status device mtuStr : string) (mtu : Z) (e : error) :
  fs E (statusPath E (Itoa id)) = Ok statusNode ->
  firstLine E (opened (statusPath E (Itoa id)) statusNode) = (status, None) ->
  nth_error (Split status space) 1 = Some device ->
  nth_error (Split status space) 3 = Some mtuStr ->
  ParseInt mtuStr 10 64 = Ok mtu ->
  fs E (addrPath E device) = Err e \/
  (exists addrNode address,
     fs E (addrPath E device) = Ok addrNode /\
     firstLine E (opened (addrPath E device) addrNode) = (address, Some e)) ->
  readInterface E id = Throw e.
Proof.
  intros Ho Hl Hd Hm Hp Haddr.
  rewrite (readInterface_after_status E id statusNode status Ho Hl).
  cbv zeta. rewrite (fields_enough _ _ Hm).
  rewrite (index_nth_error _ _ _ Hd), (index_nth_error _ _ _ Hm).
  cbn [bind]. rewrite Hp. unfold os_Open.
  destruct Haddr as [Ha|[addrNode [address [Ha Hr]]]]; rewrite Ha; cbn [try bind];
    [reflexivity|].
  fold (opened (addrPath E device) addrNode). now rewrite Hr.
Qed.

(** X7: the errors of the operating system reach the caller of
    [readInterface] unchanged: the error of opening the status file, the
    error of reading its first line, the error of opening the address
    file of the device named in the status line, and the error of reading
    that file. *)
Theorem readInterface_io_errors (E : Env) (id : Z) (e : error) :
  (fs E (statusPath E (Itoa id)) = Err e -> readInterface E id = Throw e) /\
  (forall statusNode status,
     fs E (statusPath E (Itoa id)) = Ok statusNode ->
     firstLine E (opened (statusPath E (Itoa id)) statusNode) = (status, Some e) ->
     readInterface E id = Throw e) /\
  (forall statusNode status device mtuStr mtu,
     fs E (statusPath E (Itoa id)) = Ok statusNode ->
     firstLine E (opened (statusPath E (Itoa id)) statusNode) = (status, None) ->
     nth_error (Split status space) 1 = Some device ->
     nth_error (Split status space) 3 = Some mtuStr ->
     ParseInt mtuStr 10 64 = Ok mtu ->
     fs E (addrPath E device) = Err e \/
     (exists addrNode address,
        fs E (addrPath E device) = Ok addrNode /\
        firstLine E (opened (addrPath E device) addrNode) = (address, Some e)) ->
     readInterface E id = Throw e).
Proof.
  split; [|split].
  - apply readInterface_open_fails.
  - intros statusNode status Ho Hl.
    exact (readInterface_status_read_fails E id statusNode status Ho e Hl).
  - intros statusNode status device mtuStr mtu.
    apply readInterface_addr_fails.
Qed.

(** X8: the name of a returned record, read as a decimal number, is the
    position, one less than the index: for every position that is an
    [int] below the largest, [ParseInt] reads [Index - 1] from [Name]. *)
Theorem readInterface_Name_reads_back (E : Env) (id : Z) (r : Interface) :
  minInt (arch E) <= id < maxInt (arch E) ->
  readInterface E id = Return r ->
  ParseInt (Name r) 10 64 = Ok (Index r - 1) /\
  Index r - 1 = id.
Proof.
  intros Hid Hret.
  destruct (readInterface_inv E id r Hret)
    as [status [device [mtuStr [mtu [address [hw [_ [_ [_ ->]]]]]]]]].
  cbn [record Name Index]. rewrite int_add_small by lia.
  replace (id + 1 - 1) with id by lia. split; [|reflexivity].
  apply ParseInt_Itoa.
  destruct (arch E); unfold minInt, maxInt in Hid; simpl in Hid; lia.
Qed.

(** ** interfaceTable *)

(** The full listing over a listed directory returns or reports. *)
Lemma interfaceTable_zero_total (E : Env) (names : list string) :
  lists E names ->
  (exists l, interfaceTable E 0 = Return l) \/
  (exists e, interfaceTable E 0 = Throw e).
Proof.
  intros Hlists.
  destruct (getInterfaceCount_run E names Hlists) as [k [Hret [[Hk _] _]]].
  destruct (interfaceTable_zero E k Hret Hk) as [Hok Hfail].
  destruct (reads_all_or_fails E (Z.to_nat k)) as [Hall|[m [e [Hm He]]]].
  - left. destruct Hok as [l [Hl _]]; [|eauto].
    intros i Hi. apply Hall. lia.
  - right. exact (proj1 (Hfail (Z.of_nat m) e ltac:(lia) He)).
Qed.

(** X9: [interfaceTable] never stops with a run-time panic and its loop
    always ends, for every selector: it returns a sequence or reports an
    error.  (The length of the listing of the directory is an [int].) *)
Theorem interfaceTable_never_panics (E : Env) (ifindex : Z) :
  (forall ipifc names,
     fs E (ipifcPath E) = Ok ipifc -> dirNames ipifc = Ok names ->
     Z.of_nat (List.length names) <= maxInt (arch E)) ->
  (exists l, interfaceTable E ifindex = Return l) \/
  (exists e, interfaceTable E ifindex = Throw e).
Proof.
  intros Hfit.
  destruct (Z.eq_dec ifindex 0) as [->|Hne].
  - destruct (fs E (ipifcPath E)) as [ipifc|e] eqn:Ho.
    + destruct (dirNames ipifc) as [names|e] eqn:Hl.
      * apply (interfaceTable_zero_total E names).
        exists ipifc. repeat split; try assumption. now apply (Hfit ipifc).
      * right. exists e.
        assert (Hc : getInterfaceCount E = Throw e).
        { apply getInterfaceCount_throws. right. eauto. }
        unfold interfaceTable. simpl Z.eqb. cbv iota. now rewrite Hc.
    + right. exists e.
      assert (Hc : getInterfaceCount E = Throw e).
      { apply getInterfaceCount_throws. now left. }
      unfold interfaceTable. simpl Z.eqb. cbv iota. now rewrite Hc.
  - unfold interfaceTable. destruct (Z.eqb_spec ifindex 0); [contradiction|].
    destruct (readInterface_returns_or_throws E ifindex) as [[r Hr]|[e He]].
    + left. exists [r]. now rewrite Hr.
    + right. exists e. now rewrite He.
Qed.

(** X10: in a full listing the index of a record, less one, is where the
    record stands, and the name of the record is the decimal text of that
    place: looking a record up by its index finds that record. *)
Theorem interfaceTable_lookup_by_Index (E : Env) (full : list Interface)
    (r : Interface) :
  interfaceTable E 0 = Return full ->
  In r full ->
  nth_error full (Z.to_nat (Index r - 1)) = Some r /\
  Name r = Itoa (Index r - 1) /\
  1 <= Index r <= Z.of_nat (List.length full).
Proof.
  intros Hfull Hin.
  destruct (interfaceTable_all_inv E full Hfull) as [count [Hc [Hpos [Hlen Hnth]]]].
  destruct (In_nth_error full r Hin) as [j Hj].
  pose proof (Hnth j r Hj) as Hr.
  pose proof (getInterfaceCount_range_int E count Hc) as [_ Hmax].
  assert (Hjlt : (j < List.length full)%nat) by (apply nth_error_Some; congruence).
  destruct (record_of_position E (Z.of_nat j) r ltac:(lia) Hr) as [_ [Hname Hidx]].
  specialize (Hidx ltac:(lia)).
  rewrite Hidx. replace (Z.of_nat j + 1 - 1) with (Z.of_nat j) by lia.
  rewrite Nat2Z.id. repeat split; try assumption; lia.
Qed.

(** ** interfaceAddrTable *)

(** The address of one interface, case by case. *)
Lemma addressStep_cases (E : Env) (iface : Interface) :
  addressStep E iface =
  match fs E (statusPath E (Name iface)) with
  | Err e => Throw e
  | Ok statusNode =>
      match secondLine E (opened (statusPath E (Name iface)) statusNode) with
      | (_, Some e) => Throw e
      | (line, None) =>
          match line with
          | EmptyString => Panic "slice bounds out of range"
          | String c _ =>
              if Ascii.eqb c tab then
                match ParseIP E (ipToken line) with
                | None => Throw unableToParseIP
                | Some _ => Return (addressOf E line)
                end
              else Throw cannotParseIP
          end
      end
  end.
Proof.
  unfold addressStep, os_Open. fold (statusPath E (Name iface)).
  destruct (fs E (statusPath E (Name iface))) as [statusNode|e]; [|reflexivity].
  cbn [try bind]. unfold secondLine, opened.
  set (scanner := snd (Scan (snd (Scan (NewScanner E _))))).
  destruct (Scanner_Err scanner) as [e|]; [reflexivity|]. cbn [check bind].
  destruct (Text scanner) as [|c line]; [reflexivity|].
  unfold slice. cbn [Nat.leb String.length andb Nat.sub bind substring].
  replace (substring 0 0 line) with EmptyString by (now destruct line).
  cbn [String.eqb].
  destruct (Ascii.eqb_spec c tab) as [->|Hc]; cbn [negb]; [|reflexivity].
  cbn [Split]. rewrite Ascii.eqb_refl.
  destruct (Split_nonempty line tab) as [field [fields Hf]].
  destruct (Split_nonempty field space) as [ipaddr [tokens Hs]].
  assert (Htok : ipToken (String tab line) = ipaddr).
  { unfold ipToken. cbn [Split]. rewrite Ascii.eqb_refl, Hf. cbn [nth].
    now rewrite Hs. }
  unfold addressOf. rewrite Htok, Hf. cbn [index nth_error bind].
  rewrite Hs. cbn [index nth_error bind IPAddr_IP].
  destruct (ParseIP E ipaddr); reflexivity.
Qed.

(** A turn of the loop is the address of the interface put into the
    slice. *)
Lemma interfaceAddrTable_loop_turn (E : Env) (iface : Interface)
    (rest : list Interface) (idx : nat) (addresses : list Addr) :
  interfaceAddrTable_loop E (iface :: rest) idx addresses =
  (a <- addressStep E iface ;;
   addresses <- assign addresses idx a ;;
   interfaceAddrTable_loop E rest (S idx) addresses).
Proof.
  cbn [interfaceAddrTable_loop]. unfold addressStep.
  destruct (try (os_Open E _)) as [statusFile| | |]; try reflexivity.
  cbn [bind].
  destruct (check _) as [[]| | |]; try reflexivity. cbn [bind].
  destruct (slice _ 0 1) as [first| | |]; try reflexivity. cbn [bind].
  destruct (negb _); [reflexivity|].
  destruct (index _ 1) as [field| | |]; try reflexivity. cbn [bind].
  destruct (index _ 0) as [ipaddr| | |]; try reflexivity. cbn [bind IPAddr_IP].
  destruct (ParseIP E ipaddr); reflexivity.
Qed.

Lemma interfaceAddrTable_one (E : Env) (iface : Interface) :
  interfaceAddrTable E (Some iface) = (a <- addressStep E iface ;; Return [a]).
Proof.
  unfold interfaceAddrTable. cbn [bind]. unfold make, lenSlice.
  cbn [List.length Z.of_nat Z.ltb Z.compare Z.to_nat Pos.to_nat Pos.iter_op
       Nat.add repeat bind].
  rewrite interfaceAddrTable_loop_turn.
  destruct (addressStep E iface); reflexivity.
Qed.

(** The loop over the interfaces gives what the calls for the single
    interfaces give, put end to end. *)
Lemma interfaceAddrTable_loop_collect (E : Env) (ifaces : list Interface) :
  forall (done pending : list Addr),
    List.length pending = List.length ifaces ->
    interfaceAddrTable_loop E ifaces (List.length done) (done ++ pending) =
    (ls <- collect (map (fun iface => interfaceAddrTable E (Some iface)) ifaces) ;;
     Return (done ++ ls)).
Proof.
  induction ifaces as [|iface rest IH]; intros done pending Hpend.
  - destruct pending; [|discriminate]. reflexivity.
  - destruct pending as [|p pending]; [discriminate|]. injection Hpend as Hpend.
    rewrite interfaceAddrTable_loop_turn. cbn [map collect].
    rewrite interfaceAddrTable_one.
    destruct (addressStep E iface) as [a| | |]; try reflexivity. cbn [bind].
    rewrite assign_middle. cbn [bind].
    replace (S (List.length done)) with (List.length (done ++ [a]))
      by (rewrite length_app; simpl; lia).
    replace (done ++ a :: pending) with ((done ++ [a]) ++ pending)
      by (rewrite <- app_assoc; reflexivity).
    rewrite (IH (done ++ [a]) pending Hpend).
    destruct (collect _) as [ls| | |]; try reflexivity. cbn [bind].
    now rewrite <- app_assoc.
Qed.

Lemma interfaceAddrTable_collect (E : Env) (ifaces : list Interface) :
  interfaceTable E 0 = Return ifaces ->
  interfaceAddrTable E None =
  collect (map (fun iface => interfaceAddrTable E (Some iface)) ifaces).
Proof.
  intros Hfull.
  rewrite (interfaceAddrTable_resolved E None ifaces Hfull).
  rewrite (interfaceAddrTable_loop_collect E ifaces [] _ (repeat_length _ _)).
  destruct (collect _); reflexivity.
Qed.

(** The calls before the first one that reports an error do not count. *)
Lemma collect_first_error {A : Type} (good : list (outcome (list A)))
    (rest : list (outcome (list A))) (e : error) :
  (forall call, In call good -> exists l, call = Return l) ->
  collect (good ++ Throw e :: rest) = Throw e.
Proof.
  induction good as [|call good IH]; intros Hgood; [reflexivity|].
  destruct (Hgood call (or_introl eq_refl)) as [l ->].
  cbn [app collect bind]. rewrite IH; [reflexivity|].
  intros c Hc. apply Hgood. now right.
Qed.

(** X11: the addresses of all interfaces are the addresses of the single
    interfaces of the full listing, in its order: asking without an
    interface gives what asking for each listed interface in turn gives,
    put end to end, and the first interface whose own lookup reports an
    error makes the whole lookup report that error. *)
Theorem interfaceAddrTable_all_is_each (E : Env) (ifaces : list Interface) :
  interfaceTable E 0 = Return ifaces ->
  interfaceAddrTable E None =
    collect (map (fun iface => interfaceAddrTable E (Some iface)) ifaces) /\
  (forall good bad rest e,
     ifaces = good ++ bad :: rest ->
     (forall iface, In iface good ->
        exists l, interfaceAddrTable E (Some iface) = Return l) ->
     interfaceAddrTable E (Some bad) = Throw e ->
     interfaceAddrTable E None = Throw e).
Proof.
  intros Hfull. pose proof (interfaceAddrTable_collect E ifaces Hfull) as Hall.
  split; [exact Hall|].
  intros good bad rest e -> Hgood Hbad. rewrite Hall.
  rewrite map_app. cbn [map]. rewrite Hbad.
  apply collect_first_error.
  intros call Hcall. apply in_map_iff in Hcall as [iface [<- Hin]].
  now apply Hgood.
Qed.

(** The lookup for one interface, case by case. *)
Lemma interfaceAddrTable_one_cases (E : Env) (iface : Interface) :
  interfaceAddrTable E (Some iface) =
  match fs E (statusPath E (Name iface)) with
  | Err e => Throw e
  | Ok statusNode =>
      match secondLine E (opened (statusPath E (Name iface)) statusNode) with
      | (_, Some e) => Throw e
      | (line, None) =>
          match line with
          | EmptyString => Panic "slice bounds out of range"
          | String c _ =>
              if Ascii.eqb c tab then
                match ParseIP E (ipToken line) with
                | None => Throw unableToParseIP
                | Some _ => Return [addressOf E line]
                end
              else Throw cannotParseIP
          end
      end
  end.
Proof.
  rewrite interfaceAddrTable_one, addressStep_cases.
  destruct (fs E _) as [statusNode|]; [|reflexivity].
  destruct (secondLine E _) as [line [e|]]; [reflexivity|].
  destruct line as [|c line]; [reflexivity|].
  destruct (Ascii.eqb c tab); [|reflexivity].
  destruct (ParseIP E _); reflexivity.
Qed.

(** X12: the errors of the operating system reach the caller of
    [interfaceAddrTable] unchanged: the error of opening the status file
    of the interface, and the error met while reading its first two
    lines. *)
Theorem interfaceAddrTable_io_errors (E : Env) (iface : Interface) (e : error) :
  (fs E (statusPath E (Name iface)) = Err e ->
   interfaceAddrTable E (Some iface) = Throw e) /\
  (forall statusNode line,
     fs E (statusPath E (Name iface)) = Ok statusNode ->
     secondLine E (opened (statusPath E (Name iface)) statusNode) = (line, Some e) ->
     interfaceAddrTable E (Some iface) = Throw e).
Proof.
  rewrite interfaceAddrTable_one_cases. split.
  - now intros ->.
  - intros statusNode line -> Hl. now rewrite Hl.
Qed.

(** X13: an address line that begins with a tab and whose token [ParseIP]
    takes for no IP address makes [interfaceAddrTable] report the format
    error "Unable to parse IP address for interface", and no address. *)
Theorem interfaceAddrTable_unparsable_token (E : Env) (iface : Interface)
    (line : string) :
  addressLine E iface line ->
  beginsWithTab line = true ->
  ParseIP E (ipToken line) = None ->
  interfaceAddrTable E (Some iface) = Throw unableToParseIP /\
  isFormatError unableToParseIP = true.
Proof.
  intros [statusNode [Ho Hl]] Htab Hip.
  rewrite interfaceAddrTable_one_cases, Ho, Hl.
  destruct line as [|c line]; [discriminate|]. cbn [beginsWithTab] in Htab.
  rewrite Htab, Hip. split; reflexivity.
Qed.

(** X14: the lookup for one interface stops with a run-time panic in one
    case only, that of the empty address line; it never fails to end. *)
Theorem interfaceAddrTable_panics_only_on_empty_line (E : Env) (iface : Interface) :
  (forall msg,
     interfaceAddrTable E (Some iface) = Panic msg ->
     msg = "slice bounds out of range"%string /\ addressLine E iface EmptyString) /\
  interfaceAddrTable E (Some iface) <> Loops.
Proof.
  rewrite interfaceAddrTable_one_cases. unfold addressLine.
  destruct (fs E (statusPath E (Name iface))) as [statusNode|e];
    [|split; [intros msg|]; discriminate].
  destruct (secondLine E _) as [line [e|]] eqn:Hl;
    [split; [intros msg|]; discriminate|].
  destruct line as [|c line].
  - split; [|discriminate]. intros msg [= <-]. split; [reflexivity|].
    exists statusNode. split; [reflexivity|assumption].
  - destruct (Ascii.eqb c tab); [|split; [intros msg|]; discriminate].
    destruct (ParseIP E _); split; try intros msg; discriminate.
Qed.

(** What a returned sequence of the lookup for one interface tells. *)
Lemma interfaceAddrTable_one_inv (E : Env) (iface : Interface) (l : list Addr) :
  interfaceAddrTable E (Some iface) = Return l ->
  exists line ip,
    addressLine E iface line /\ beginsWithTab line = true /\
    ParseIP E (ipToken line) = Some ip /\
    l = [Some {| IPAddr_IP := Some ip; Zone := EmptyString |}].
Proof.
  rewrite interfaceAddrTable_one_cases. unfold addressLine.
  destruct (fs E (statusPath E (Name iface))) as [statusNode|e]; [|discriminate].
  destruct (secondLine E _) as [line [e|]] eqn:Hl; [discriminate|].
  destruct line as [|c line]; [discriminate|].
  destruct (Ascii.eqb c tab) eqn:Hc; [|discriminate].
  destruct (ParseIP E _) as [ip|] eqn:Hip; [|discriminate].
  intros [= <-]. exists (String c line), ip.
  split; [exists statusNode; split; [reflexivity|assumption]|].
  split; [exact Hc|]. split; [exact Hip|].
  unfold addressOf. now rewrite Hip.
Qed.

Lemma collect_inv (E : Env) (ifaces : list Interface) :
  forall addrs,
    collect (map (fun iface => interfaceAddrTable E (Some iface)) ifaces)
      = Return addrs ->
    Forall2 (fun iface addr =>
               exists line ip,
                 addressLine E iface line /\ beginsWithTab line = true /\
                 ParseIP E (ipToken line) = Some ip /\
                 addr = Some {| IPAddr_IP := Some ip; Zone := EmptyString |})
            ifaces addrs.
Proof.
  induction ifaces as [|iface rest IH]; intros addrs; cbn [map collect].
  - intros [= <-]. constructor.
  - destruct (interfaceAddrTable E (Some iface)) as [l| | |] eqn:Hone;
      try discriminate.
    cbn [bind]. destruct (collect _) as [ls| | |]; try discriminate.
    cbn [bind]. intros [= <-].
    destruct (interfaceAddrTable_one_inv E iface l Hone)
      as [line [ip [Hline [Htab [Hip ->]]]]].
    cbn [app]. constructor; [|now apply IH].
    exists line, ip. repeat split; assumption.
Qed.

(** X15: a sequence that [interfaceAddrTable] returns has one entry per
    resolved interface, in their order, and no entry is nil: each holds an
    IP address that is not nil -- what [ParseIP] made of the token of an
    address line that begins with a tab -- and the empty zone. *)
Theorem interfaceAddrTable_returns_inv (E : Env) (ifi : option Interface)
    (addrs : list Addr) :
  interfaceAddrTable E ifi = Return addrs ->
  exists ifaces,
    resolved E ifi ifaces /\
    List.length addrs = List.length ifaces /\
    Forall2 (fun iface addr =>
               exists line ip,
                 addressLine E iface line /\ beginsWithTab line = true /\
                 ParseIP E (ipToken line) = Some ip /\
                 addr = Some {| IPAddr_IP := Some ip; Zone := EmptyString |})
            ifaces addrs.
Proof.
  intros Hret.
  assert (Hres : exists ifaces, resolved E ifi ifaces).
  { destruct ifi as [i|]; [exists [i]; reflexivity|].
    unfold interfaceAddrTable in Hret.
    destruct (interfaceTable E 0) as [ifaces| | |] eqn:Hfull; try discriminate.
    exists ifaces. exact Hfull. }
  destruct Hres as [ifaces Hres]. exists ifaces. split; [exact Hres|].
  assert (Hcollect : collect (map (fun iface => interfaceAddrTable E (Some iface))
                                  ifaces) = Return addrs).
  { destruct ifi as [i|]; cbn [resolved] in Hres.
    - subst ifaces. cbn [map collect]. rewrite Hret. cbn [bind]. now rewrite app_nil_r.
    - now rewrite <- (interfaceAddrTable_collect E ifaces Hres). }
  pose proof (collect_inv E ifaces addrs Hcollect) as Hall.
  split; [symmetry; exact (Forall2_length Hall)|exact Hall].
Qed.

(** X16: the lookup for a given interface reads the status file that the
    name of the interface leads to and nothing else: two lookups for
    interfaces of the same name, in environments that agree on that path,
    on that file, on [ParseIP] and on the scanner, have the same result,
    whatever the other fields of the interfaces and the rest of the two
    filesystems are. *)
Theorem interfaceAddrTable_reads_status_only (E1 E2 : Env) (i1 i2 : Interface) :
  Name i1 = Name i2 ->
  statusPath E1 (Name i1) = statusPath E2 (Name i2) ->
  fs E1 (statusPath E1 (Name i1)) = fs E2 (statusPath E2 (Name i2)) ->
  ParseIP E1 = ParseIP E2 ->
  staleToken E1 = staleToken E2 ->
  interfaceAddrTable E1 (Some i1) = interfaceAddrTable E2 (Some i2).
Proof.
  intros Hname Hpath Hfs Hip Hstale.
  rewrite !interfaceAddrTable_one_cases. rewrite <- Hfs, <- Hpath.
  destruct (fs E1 (statusPath E1 (Name i1))) as [statusNode|e]; [|reflexivity].
  assert (Hline : secondLine E2 (opened (statusPath E1 (Name i1)) statusNode)
                  = secondLine E1 (opened (statusPath E1 (Name i1)) statusNode)).
  { unfold secondLine, NewScanner. now rewrite Hstale. }
  rewrite Hline. unfold addressOf. rewrite <- Hip. reflexivity.
Qed.

(** ** What readInterface reads *)

(** X17: of the status line [readInterface] uses the second and the
    fourth field and nothing else: two environments whose status lines
    for a position agree on these two fields, and which agree on the
    address file of the device, on [ParseMAC], on the scanner and on the
    architecture, give the same result for that position. *)
Theorem readInterface_uses_two_fields (E1 E2 : Env) (id : Z)
    (node1 node2 : Node) (status1 status2 device mtuStr : string) :
  arch E1 = arch E2 ->
  ParseMAC E1 = ParseMAC E2 ->
  staleToken E1 = staleToken E2 ->
  statusPath E1 (Itoa id) = statusPath E2 (Itoa id) ->
  fs E1 (statusPath E1 (Itoa id)) = Ok node1 ->
  fs E2 (statusPath E2 (Itoa id)) = Ok node2 ->
  firstLine E1 (opened (statusPath E1 (Itoa id)) node1) = (status1, None) ->
  firstLine E2 (opened (statusPath E2 (Itoa id)) node2) = (status2, None) ->
  nth_error (Split status1 space) 1 = Some device ->
  nth_error (Split status2 space) 1 = Some device ->
  nth_error (Split status1 space) 3 = Some mtuStr ->
  nth_error (Split status2 space) 3 = Some mtuStr ->
  addrPath E1 device = addrPath E2 device ->
  fs E1 (addrPath E1 device) = fs E2 (addrPath E2 device) ->
  readInterface E1 id = readInterface E2 id.
Proof.
  intros Harch Hmac Hstale Hpath Ho1 Ho2 Hl1 Hl2 Hd1 Hd2 Hm1 Hm2 Hap Hfs.
  rewrite (readInterface_after_status E1 id node1 status1 Ho1 Hl1).
  rewrite (readInterface_after_status E2 id node2 status2 Ho2 Hl2).
  cbv zeta. rewrite (fields_enough _ _ Hm1), (fields_enough _ _ Hm2).
  rewrite (index_nth_error _ _ _ Hd1), (index_nth_error _ _ _ Hm1).
  rewrite (index_nth_error _ _ _ Hd2), (index_nth_error _ _ _ Hm2).
  cbn [bind]. rewrite <- Hpath.
  destruct (ParseInt mtuStr 10 64) as [mtu|]; [|reflexivity].
  unfold os_Open. rewrite <- Hfs, <- Hap.
  destruct (fs E1 (addrPath E1 device)) as [addrNode|e]; [|reflexivity].
  cbn [try bind].
  assert (Hline : forall f, firstLine E2 f = firstLine E1 f).
  { intros f. unfold firstLine, NewScanner. now rewrite Hstale. }
  rewrite !Hline.
  destruct (snd (firstLine E1 _)); [reflexivity|]. cbn [check bind].
  destruct (negb _); [reflexivity|].
  rewrite <- Hmac. unfold record. rewrite <- Harch. reflexivity.
Qed.

Lemma firstLine_empty (E : Env) (name : string) (n : Node) :
  data n = EmptyString -> readErr n = None ->
  firstLine E (opened name n) = (EmptyString, None).
Proof.
  intros Hd He. unfold firstLine, Scan, NewScanner, opened.
  cbn [File_node unread finished keepsToken token srcErr].
  rewrite Hd, He. cbn [cutLine]. change (tooLong EmptyString) with false.
  cbv iota. cbn [snd Text Scanner_Err token err].
  destruct (staleToken E); reflexivity.
Qed.

Lemma secondLine_empty (E : Env) (name : string) (n : Node) :
  data n = EmptyString -> readErr n = None ->
  secondLine E (opened name n) = (EmptyString, None).
Proof.
  intros Hd He. unfold secondLine, Scan, NewScanner, opened.
  cbn [File_node unread finished keepsToken token srcErr].
  rewrite Hd, He. cbn [cutLine]. change (tooLong EmptyString) with false.
  cbv iota. cbn [snd unread finished cutLine Text Scanner_Err token err keepsToken].
  destruct (staleToken E); reflexivity.
Qed.

(** X18: empty files.  An empty status file makes [readInterface] report
    the format error that names the file; an empty address file of the
    device makes it report the format error "invalid hardware address";
    and an empty status file makes the address lookup for the interface
    stop with a run-time panic. *)
Theorem empty_files (E : Env) (id : Z) (iface : Interface) :
  (forall statusNode,
     fs E (statusPath E (Itoa id)) = Ok statusNode ->
     data statusNode = EmptyString -> readErr statusNode = None ->
     readInterface E id = Throw (invalidStatus (statusPath E (Itoa id)))) /\
  (forall status device mtuStr mtu address addrNode,
     reads E id status device mtuStr mtu address ->
     fs E (addrPath E device) = Ok addrNode ->
     data addrNode = EmptyString -> readErr addrNode = None ->
     readInterface E id = Throw invalidHardwareAddress) /\
  (forall statusNode,
     fs E (statusPath E (Name iface)) = Ok statusNode ->
     data statusNode = EmptyString -> readErr statusNode = None ->
     interfaceAddrTable E (Some iface) = Panic "slice bounds out of range").
Proof.
  split; [|split].
  - intros statusNode Ho Hd He.
    rewrite (readInterface_after_status E id statusNode EmptyString Ho
               (firstLine_empty E _ statusNode Hd He)).
    reflexivity.
  - intros status device mtuStr mtu address addrNode Hreads Ha Hd He.
    assert (Haddr : address = EmptyString).
    { destruct Hreads as [sn [an [_ [_ [_ [_ [_ [Ha' Hr]]]]]]]].
      rewrite Ha in Ha'. injection Ha' as <-.
      rewrite (firstLine_empty E _ addrNode Hd He) in Hr. now injection Hr. }
    subst address.
    rewrite (readInterface_reads E id status device mtuStr mtu EmptyString Hreads).
    reflexivity.
  - intros statusNode Ho Hd He.
    rewrite interfaceAddrTable_one_cases, Ho.
    now rewrite (secondLine_empty E _ statusNode Hd He).
Qed.

(** The numbers of the records are [int]s: the index and the MTU of
    every record that [readInterface] returns, and every count that
    [getInterfaceCount] returns, lie between the least and the largest
    [int] of the architecture. *)
Lemma results_are_ints (E : Env) :
  (forall id r, readInterface E id = Return r ->
     minInt (arch E) <= Index r <= maxInt (arch E) /\
     minInt (arch E) <= MTU r <= maxInt (arch E)) /\
  (forall count, getInterfaceCount E = Return count ->
     minInt (arch E) <= count <= maxInt (arch E)).
Proof.
  split.
  - intros id r Hret.
    destruct (readInterface_inv E id r Hret)
      as [status [device [mtuStr [mtu [address [hw [_ [_ [_ ->]]]]]]]]].
    cbn [record Index MTU]. split; [apply int_add_range|].
    unfold int_of_int64, minInt, maxInt. apply wrap_range, intSize_pos.
  - apply getInterfaceCount_range_int.
Qed.

(** * Examples of the further properties *)

Lemma threeInterfaces_lists :
  lists (exampleEnv threeInterfaces) ["clone"; "stats"; "1"; "0"; "5"; "2"]%string.
Proof.
  exists (directory ["clone"; "stats"; "1"; "0"; "5"; "2"]%string).
  repeat split. vm_compute. discriminate.
Qed.

(** Six names listed: the count lies between 0 and 6. *)
Lemma getInterfaceCount_bounded_witness :
  exists k, getInterfaceCount (exampleEnv threeInterfaces) = Return k /\
            0 <= k <= 6.
Proof.
  destruct (getInterfaceCount_bounded (exampleEnv threeInterfaces) _
              threeInterfaces_lists) as [k [Hret [Hb _]]].
  exists k. split; [exact Hret|exact Hb].
Defined.

(** The same names in another order and one of them twice: the same
    count. *)
Lemma getInterfaceCount_same_names_witness :
  getInterfaceCount (exampleEnv threeInterfaces) =
  getInterfaceCount (exampleEnv threeShuffled).
Proof.
  apply (getInterfaceCount_same_names _ _
           ["clone"; "stats"; "1"; "0"; "5"; "2"]%string
           ["2"; "5"; "0"; "stats"; "1"; "clone"; "2"]%string).
  - exact threeInterfaces_lists.
  - exists (directory ["2"; "5"; "0"; "stats"; "1"; "clone"; "2"]%string).
    repeat split. vm_compute. discriminate.
  - intros name. simpl. tauto.
Defined.

(** No enumeration directory at all: the error of opening it comes back
    from all three functions. *)
Lemma directory_error_propagates_witness :
  interfaceAddrTable (exampleEnv []) None =
    Throw (PathError "open" "/net/ipifc" "file does not exist").
Proof.
  refine (proj2 (proj2 (directory_error_propagates (exampleEnv []) _ _))).
  left. reflexivity.
Defined.

(** Entries "1" and "2" without an entry "0": no interfaces, no error. *)
Lemma no_zero_entry_no_interfaces_witness :
  interfaceTable (exampleEnv noZero) 0 = Return [] /\
  interfaceAddrTable (exampleEnv noZero) None = Return [].
Proof.
  apply (no_zero_entry_no_interfaces (exampleEnv noZero)
           (directory ["clone"; "stats"; "1"; "2"]%string)
           ["clone"; "stats"; "1"; "2"]%string eq_refl eq_refl).
  simpl. intuition discriminate.
Defined.

Lemma readInterface_Flags_witness :
  Flags (nth 0 threeRecords zeroInterface) = 7.
Proof.
  exact (proj1 (proj2 (readInterface_Flags (exampleEnv threeInterfaces) 0
                         (nth 0 threeRecords zeroInterface) eq_refl))).
Defined.

(** The device of interface "1" has no address file: the error of opening
    it. *)
Lemma readInterface_io_errors_witness :
  readInterface (exampleEnv missingAddrFile) 1 =
    Throw (PathError "open" "/net/ether1/addr" "file does not exist").
Proof.
  refine (proj2 (proj2 (readInterface_io_errors (exampleEnv missingAddrFile) 1 _))
            (textFile ("up /net/ether1 X 1500" ++ nl)%string)
            "up /net/ether1 X 1500"%string "/net/ether1"%string "1500"%string 1500
            eq_refl eq_refl eq_refl eq_refl eq_refl _).
  left. reflexivity.
Defined.

(** The name "2" reads back as 2, the index 3 less one. *)
Lemma readInterface_Name_reads_back_witness :
  ParseInt (Name (nth 2 threeRecords zeroInterface)) 10 64 =
    Ok (Index (nth 2 threeRecords zeroInterface) - 1).
Proof.
  refine (proj1 (readInterface_Name_reads_back (exampleEnv threeInterfaces) 2
                   (nth 2 threeRecords zeroInterface) _ eq_refl)).
  vm_compute. split; [discriminate|reflexivity].
Defined.

Lemma interfaceTable_never_panics_witness :
  (exists l, interfaceTable (exampleEnv missingAddrFile) 0 = Return l) \/
  (exists e, interfaceTable (exampleEnv missingAddrFile) 0 = Throw e).
Proof.
  apply interfaceTable_never_panics.
  intros ipifc names Ho Hl. cbv in Ho. injection Ho as <-.
  cbv in Hl. injection Hl as <-. vm_compute. discriminate.
Defined.

(** The record with the index 2 stands at place 1 of the listing. *)
Lemma interfaceTable_lookup_by_Index_witness :
  nth_error threeRecords 1 = Some (nth 1 threeRecords zeroInterface).
Proof.
  exact (proj1 (interfaceTable_lookup_by_Index (exampleEnv threeInterfaces)
                  threeRecords (nth 1 threeRecords zeroInterface) eq_refl
                  ltac:(simpl; tauto))).
Defined.

Lemma interfaceAddrTable_all_is_each_witness :
  interfaceAddrTable (exampleEnv threeInterfaces) None =
  collect (map (fun iface => interfaceAddrTable (exampleEnv threeInterfaces) (Some iface))
               threeRecords).
Proof.
  exact (proj1 (interfaceAddrTable_all_is_each (exampleEnv threeInterfaces)
                  threeRecords eq_refl)).
Defined.

(** No status file for the interface: the error of opening it. *)
Lemma interfaceAddrTable_io_errors_witness :
  interfaceAddrTable (exampleEnv []) (Some madeUp) =
    Throw (PathError "open" "/net/ipifc/0/status" "file does not exist").
Proof.
  exact (proj1 (interfaceAddrTable_io_errors (exampleEnv []) madeUp _) eq_refl).
Defined.

(** The token "none" is no IP address. *)
Lemma interfaceAddrTable_unparsable_token_witness :
  interfaceAddrTable (exampleEnv badToken) (Some madeUp) = Throw unableToParseIP.
Proof.
  refine (proj1 (interfaceAddrTable_unparsable_token (exampleEnv badToken) madeUp
                   (ht ++ "none 255.255.255.0" ++ ht)%string _ eq_refl eq_refl)).
  exists (textFile (statusText "up /net/ether0 X 1500"
                      (ht ++ "none 255.255.255.0" ++ ht)%string)).
  split; vm_compute; reflexivity.
Defined.

(** The panic of the lookup over the empty second line is traced back to
    that line. *)
Lemma interfaceAddrTable_panics_only_on_empty_line_witness :
  addressLine (exampleEnv (withAddressLine EmptyString)) madeUp EmptyString.
Proof.
  exact (proj2 (proj1 (interfaceAddrTable_panics_only_on_empty_line
                         (exampleEnv (withAddressLine EmptyString)) madeUp)
                  "slice bounds out of range"%string eq_refl)).
Defined.

Lemma interfaceAddrTable_returns_inv_witness :
  exists ifaces,
    resolved (exampleEnv threeInterfaces) None ifaces /\
    List.length ifaces = 3%nat.
Proof.
  destruct (interfaceAddrTable_returns_inv (exampleEnv threeInterfaces) None
              (map (fun ip => Some {| IPAddr_IP := parseIP ip; Zone := EmptyString |})
                   ["10.0.0.5"; "10.0.1.5"; "10.0.2.5"]%string)
              eq_refl) as [ifaces [Hres [Hlen _]]].
  exists ifaces. split; [exact Hres|]. now rewrite <- Hlen.
Defined.

(** A made-up interface called "0" in a filesystem that holds the status
    file alone has the address of the listed interface "0". *)
Lemma interfaceAddrTable_reads_status_only_witness :
  interfaceAddrTable (exampleEnv threeInterfaces)
    (Some (nth 0 threeRecords zeroInterface)) =
  interfaceAddrTable
    (exampleEnv [("/net/ipifc/0/status"%string,
                  textFile (statusText "up /net/ether0 X 1500" tabbedLine))])
    (Some madeUp).
Proof.
  apply interfaceAddrTable_reads_status_only; reflexivity.
Defined.

(** "up /net/ether0 X 1500" and "down /net/ether0 Y 1500 more" give the
    same record. *)
Lemma readInterface_uses_two_fields_witness :
  readInterface (exampleEnv threeInterfaces) 0 =
  readInterface (exampleEnv otherFields) 0.
Proof.
  apply (readInterface_uses_two_fields _ _ 0
           (textFile (statusText "up /net/ether0 X 1500" tabbedLine))
           (textFile (statusText "down /net/ether0 Y 1500 more"
                        (ht ++ "10.9.9.9 /24" ++ ht)%string))
           "up /net/ether0 X 1500"%string "down /net/ether0 Y 1500 more"%string
           "/net/ether0"%string "1500"%string);
    reflexivity.
Defined.

Lemma empty_files_witness :
  readInterface (exampleEnv emptyStatus) 0 =
    Throw (errors_New "Invalid status file of interface: /net/ipifc/0/status") /\
  interfaceAddrTable (exampleEnv emptyStatus) (Some madeUp) =
    Panic "slice bounds out of range".
Proof.
  destruct (empty_files (exampleEnv emptyStatus) 0 madeUp) as [Hstatus [_ Haddr]].
  split.
  - exact (Hstatus (textFile EmptyString) eq_refl eq_refl eq_refl).
  - exact (Haddr (textFile EmptyString) eq_refl eq_refl eq_refl).
Defined.

Lemma results_are_ints_witness :
  minInt amd64 <= MTU (nth 2 threeRecords zeroInterface) <= maxInt amd64.
Proof.
  exact (proj2 (proj1 (results_are_ints (exampleEnv threeInterfaces)) 2
                  (nth 2 threeRecords zeroInterface) eq_refl)).
Defined.
